(** * instacomments: pagination, filtering, deduplication and output

    A shallow embedding of [instacomments.py].  The script downloads the
    parent comments of one post page by page, keeps the comments with
    enough likes, removes duplicates and writes the result to a file.

    What is modelled, and how:
    - parsed JSON and the records built from it are values of [pyval];
      numbers are integers (a JSON number with a fraction or an exponent
      is outside the model) and text is ASCII (the characters above 127
      are outside the model);
    - a Python exception is the [Raise] branch of [outcome]; [sys.exit]
      raises [SystemExit], as it does in Python;
    - the query service is a script: the list of replies it gives, in the
      order of the requests.  The requests sent are returned as a log;
    - the file system is one flag, whether writing raises [OSError]; the
      file written is returned as a structured [document];
    - the command line is taken as parsed: [main] starts from the
      arguments that [parse_args] returned;
    - console messages and the progress bar are not modelled. *)

From Stdlib Require Import ZArith String Ascii List Bool Lia.
From Stdlib Require Import Sorting.Sorted Sorting.Permutation.
From stdpp Require Import base decidable countable gmap strings list.

Set Warnings "-register-all".
Import ListNotations.
Local Open Scope string_scope.
Local Open Scope list_scope.
Local Open Scope Z_scope.

(** ** Python values and exceptions *)

Inductive pyval : Type :=
| PNone
| PBool (b : bool)
| PInt (n : Z)
| PStr (s : string)
| PList (xs : list pyval)
| PDict (kvs : list (string * pyval)).

Inductive exn : Type :=
| KeyError
| TypeError
| AttributeError
| OSError
| EOFError
| SystemExit (code : Z).

Inductive outcome (A : Type) : Type :=
| Ok (a : A)
| Raise (e : exn).

Arguments Ok {A} a.
Arguments Raise {A} e.

Definition bind {A B : Type} (m : outcome A) (k : A -> outcome B) : outcome B :=
  match m with
  | Ok a => k a
  | Raise e => Raise e
  end.

Notation "x <- m ;; k" := (bind m (fun x => k))
  (at level 100, m at next level, right associativity,
   format "'[v' x  <-  m  ;; '/' k ']'").

(** [sys.exit(code)] *)
Definition sys_exit {A : Type} (code : Z) : outcome A := Raise (SystemExit code).

(** The status the process ends with: 0 after a normal end, the code of
    an uncaught [SystemExit], and 1 after any other uncaught exception. *)
Definition exit_status {A : Type} (o : outcome A) : Z :=
  match o with
  | Ok _ => 0
  | Raise (SystemExit code) => code
  | Raise _ => 1
  end.

Module Py.

(** [bool(v)] *)
Definition truthy (v : pyval) : bool :=
  match v with
  | PNone => false
  | PBool b => b
  | PInt n => negb (n =? 0)
  | PStr s => negb (String.eqb s "")
  | PList xs => match xs with [] => false | _ => true end
  | PDict kvs => match kvs with [] => false | _ => true end
  end.

(** [a or b] *)
Definition or_ (a b : pyval) : pyval := if truthy a then a else b.

(** A dict is an association list; the first binding of a key is the
    value of the key. *)
Fixpoint lookup (k : string) (kvs : list (string * pyval)) : option pyval :=
  match kvs with
  | [] => None
  | (k', v) :: rest => if String.eqb k k' then Some v else lookup k rest
  end.

(** [d[k] = v] on the association list: an existing key keeps its
    place, a new key goes last. *)
Fixpoint store (k : string) (v : pyval) (kvs : list (string * pyval))
  : list (string * pyval) :=
  match kvs with
  | [] => [(k, v)]
  | (k', v') :: rest =>
      if String.eqb k k' then (k, v) :: rest else (k', v') :: store k v rest
  end.

(** [v.get(k, default)]: only a dict has the method. *)
Definition get (v : pyval) (k : string) (default : pyval) : outcome pyval :=
  match v with
  | PDict kvs => Ok (match lookup k kvs with Some x => x | None => default end)
  | _ => Raise AttributeError
  end.

(** [v[k]] for a string [k]: a dict without the key raises [KeyError],
    every other value raises [TypeError]. *)
Definition getitem (v : pyval) (k : string) : outcome pyval :=
  match v with
  | PDict kvs =>
      match lookup k kvs with
      | Some x => Ok x
      | None => Raise KeyError
      end
  | _ => Raise TypeError
  end.

Fixpoint chars (s : string) : list pyval :=
  match s with
  | EmptyString => []
  | String c s' => PStr (String c EmptyString) :: chars s'
  end.

Fixpoint keys (seen : list string) (kvs : list (string * pyval)) : list pyval :=
  match kvs with
  | [] => []
  | (k, _) :: rest =>
      if existsb (String.eqb k) seen then keys seen rest
      else PStr k :: keys (k :: seen) rest
  end.

(** The values a [for] loop over [v] visits. *)
Definition iter (v : pyval) : outcome (list pyval) :=
  match v with
  | PList xs => Ok xs
  | PDict kvs => Ok (keys [] kvs)
  | PStr s => Ok (chars s)
  | _ => Raise TypeError
  end.

(** The integer a value compares as: [bool] is a subclass of [int]. *)
Definition as_int (v : pyval) : option Z :=
  match v with
  | PInt n => Some n
  | PBool b => Some (if b then 1 else 0)
  | _ => None
  end.

(** [v >= n] for an integer [n] *)
Definition ge (v : pyval) (n : Z) : outcome bool :=
  match as_int v with
  | Some m => Ok (n <=? m)
  | None => Raise TypeError
  end.

(** [isinstance(v, list)] *)
Definition is_list (v : pyval) : bool :=
  match v with PList _ => true | _ => false end.

End Py.

(** ** Record Extractor *)

(** The loop of [parse_comment_node] over the reply edges; [replies] is
    the list built so far. *)
Fixpoint parse_replies (reply_edges replies : list pyval) : outcome (list pyval) :=
  match reply_edges with
  | [] => Ok replies
  | e :: rest =>
      rnode <- Py.get e "node" (PDict []) ;;
      rowner <- Py.get rnode "owner" (PDict []) ;;
      id <- Py.get rnode "id" PNone ;;
      username <- Py.get rowner "username" PNone ;;
      text <- Py.get rnode "text" PNone ;;
      like_count <- Py.get rnode "like_count" PNone ;;
      created_at <- Py.get rnode "created_at" PNone ;;
      parse_replies rest
        (replies ++ [PDict [("id", id); ("username", username); ("text", text);
                            ("like_count", like_count); ("created_at", created_at)]])
  end.

Definition parse_comment_node (node : pyval) (include_replies : bool) : outcome pyval :=
  owner <- Py.get node "owner" (PDict []) ;;
  id <- Py.get node "id" PNone ;;
  username <- Py.get owner "username" PNone ;;
  text <- Py.get node "text" PNone ;;
  like_count <- Py.get node "like_count" PNone ;;
  created_at <- Py.get node "created_at" PNone ;;
  let item := [("id", id); ("username", username); ("text", text);
               ("like_count", like_count); ("created_at", created_at)] in
  if include_replies then
    replies_info <- Py.get node "edge_threaded_comments" (PDict []) ;;
    reply_edges <- Py.get replies_info "edges" (PList []) ;;
    es <- Py.iter reply_edges ;;
    replies <- parse_replies es [] ;;
    Ok (PDict (Py.store "replies" (PList replies) item))
  else Ok (PDict item).

(** ** Query Executor *)

Definition PARENT_QUERY_HASH : string := "97b41c52301f77ce508f55e66d17620e".

(** What one [requests.get] brings back: no connection (the call raises
    a [RequestException], an [OSError]), or a status code and a body that
    is JSON ([Some]) or not ([None]). *)
Inductive reply : Type :=
| NoConnection
| Reply (status_code : Z) (json : option pyval).

Record request : Type := {
  rq_query_hash : string;
  rq_variables : list (string * pyval);
  rq_headers : list (string * string)
}.

(** [graphql_request] against the reply [r] of the service; the request
    sent is returned with the outcome. *)
Definition graphql_request (query_hash : string) (variables : list (string * pyval))
    (headers : list (string * string)) (r : reply) : request * outcome pyval :=
  ({| rq_query_hash := query_hash; rq_variables := variables; rq_headers := headers |},
   match r with
   | NoConnection => Raise OSError
   | Reply status_code json =>
       if negb (status_code =? 200) then sys_exit 1
       else match json with
            | Some data => Ok data
            | None => sys_exit 1
            end
   end).

(** ** Page Iterator *)

Record loop_state : Type := {
  results : list pyval;
  has_next : bool;
  cursor : pyval
}.

(** How one pass through the body of the [while] loop ends. *)
Inductive step : Type :=
| Next (st : loop_state)
| Break (res : list pyval).

(** How the [try] block ends when it raises nothing. *)
Inductive page_exit : Type :=
| MediaMissing
| PageRead (edge_info : pyval) (has_next : bool).

(** How a run against a script ends: [AwaitingPage] when the script has
    no reply left for the request the loop is about to send. *)
Inductive run (A : Type) : Type :=
| Returned (a : A)
| Failed (e : exn)
| AwaitingPage (st : loop_state).

Arguments Returned {A} a.
Arguments Failed {A} e.
Arguments AwaitingPage {A} st.

Section Fetch.

Variables (shortcode : string) (headers : list (string * string)).
Variables (per_page : Z) (include_replies : bool).
Variables (max_comments : option Z) (min_likes : Z).

(** [max_comments and len(results) >= max_comments] *)
Definition cap_reached (results : list pyval) : bool :=
  match max_comments with
  | Some m => negb (m =? 0) && (m <=? Z.of_nat (length results))
  | None => false
  end.

(** [(item.get("like_count") or 0) >= min_likes] *)
Definition enough_likes (item : pyval) : outcome bool :=
  like_count <- Py.get item "like_count" PNone ;;
  Py.ge (Py.or_ like_count (PInt 0)) min_likes.

(** The record of one edge and whether it is kept. *)
Definition edge_item (edge : pyval) : outcome (pyval * bool) :=
  node <- Py.get edge "node" (PDict []) ;;
  item <- parse_comment_node node include_replies ;;
  keep <- enough_likes item ;;
  Ok (item, keep).

(** The [for] loop over the edges of a page.  The list it returns is
    [results] as the loop leaves it, also when it raises. *)
Fixpoint for_edges (edges results : list pyval) (has_next : bool)
  : list pyval * outcome bool :=
  match edges with
  | [] => (results, Ok has_next)
  | edge :: rest =>
      match edge_item edge with
      | Raise e => (results, Raise e)
      | Ok (item, keep) =>
          let results := if keep then results ++ [item] else results in
          if cap_reached results then (results, Ok false)
          else for_edges rest results has_next
      end
  end.

(** [data.get("data", {}).get("shortcode_media")] *)
Definition shortcode_media (data : pyval) : outcome pyval :=
  d <- Py.get data "data" (PDict []) ;;
  Py.get d "shortcode_media" PNone.

(** [media["edge_media_to_parent_comment"]] and the edges the [for]
    loop is going to visit *)
Definition page_edges (media : pyval) : outcome (pyval * list pyval) :=
  edge_info <- Py.getitem media "edge_media_to_parent_comment" ;;
  edges <- Py.get edge_info "edges" (PList []) ;;
  es <- Py.iter edges ;;
  Ok (edge_info, es).

(** The [try] block. *)
Definition read_page (data : pyval) (results : list pyval) (has_next : bool)
  : list pyval * outcome page_exit :=
  match shortcode_media data with
  | Raise e => (results, Raise e)
  | Ok media =>
      if negb (Py.truthy media) then (results, Ok MediaMissing)
      else
        match page_edges media with
        | Raise e => (results, Raise e)
        | Ok (edge_info, es) =>
            let (results, r) := for_edges es results has_next in
            (results, hn <- r ;; Ok (PageRead edge_info hn))
        end
  end.

(** The body of the [while] loop, run against the reply [r]. *)
Definition loop_body (st : loop_state) (r : reply) : request * outcome step :=
  let variables := [("shortcode", PStr shortcode); ("first", PInt per_page)] in
  let variables :=
    if Py.truthy (cursor st) then Py.store "after" (cursor st) variables
    else variables in
  let (rq, got) := graphql_request PARENT_QUERY_HASH variables headers r in
  (rq,
   data <- got ;;
   match read_page data (results st) (has_next st) with
   | (results, Raise KeyError) => Ok (Break results)
   | (_, Raise e) => Raise e
   | (results, Ok MediaMissing) => Ok (Break results)
   | (results, Ok (PageRead edge_info _)) =>
       page_info <- Py.get edge_info "page_info" (PDict []) ;;
       next_page <- Py.get page_info "has_next_page" PNone ;;
       end_cursor <- Py.get page_info "end_cursor" PNone ;;
       Ok (Next {| results := results;
                   has_next := Py.truthy next_page && negb (cap_reached results);
                   cursor := end_cursor |})
   end).

(** The [while] loop. *)
Fixpoint fetch_loop (script : list reply) (st : loop_state)
  : list request * run (list pyval) :=
  if has_next st then
    match script with
    | [] => ([], AwaitingPage st)
    | r :: script' =>
        let (rq, o) := loop_body st r in
        match o with
        | Raise e => ([rq], Failed e)
        | Ok (Break res) => ([rq], Returned res)
        | Ok (Next st') =>
            let (log, res) := fetch_loop script' st' in (rq :: log, res)
        end
    end
  else ([], Returned (results st)).

Definition fetch_parent_comments (script : list reply) : list request * run (list pyval) :=
  fetch_loop script {| results := []; has_next := true; cursor := PNone |}.

End Fetch.

(** ** Strings *)

Module Str.

Definition is_upper (c : ascii) : bool :=
  let n := N_of_ascii c in (65 <=? n)%N && (n <=? 90)%N.

Definition lower_char (c : ascii) : ascii :=
  if is_upper c then ascii_of_N (N_of_ascii c + 32) else c.

(** [s.lower()] *)
Fixpoint lower (s : string) : string :=
  match s with
  | EmptyString => EmptyString
  | String c s' => String (lower_char c) (lower s')
  end.

(** The characters [s.strip()] removes: tab, line feed, vertical tab,
    form feed, carriage return, the four separators 28 to 31, space. *)
Definition is_space (c : ascii) : bool :=
  let n := N_of_ascii c in
  ((9 <=? n)%N && (n <=? 13)%N) || ((28 <=? n)%N && (n <=? 32)%N).

Fixpoint lstrip (s : string) : string :=
  match s with
  | EmptyString => EmptyString
  | String c s' => if is_space c then lstrip s' else s
  end.

Fixpoint rstrip (s : string) : string :=
  match s with
  | EmptyString => EmptyString
  | String c s' =>
      match rstrip s' with
      | EmptyString => if is_space c then EmptyString else String c EmptyString
      | t => String c t
      end
  end.

(** [s.strip()] *)
Definition strip (s : string) : string := rstrip (lstrip s).

(** [s.replace(old, new)] for a pattern [old] of one character *)
Fixpoint replace (old : ascii) (new : string) (s : string) : string :=
  match s with
  | EmptyString => EmptyString
  | String c s' =>
      if Ascii.eqb c old then (new ++ replace old new s')%string
      else String c (replace old new s')
  end.

(** [s] without the prefix [p], when it starts with [p] *)
Fixpoint drop_prefix (p s : string) : option string :=
  match p, s with
  | EmptyString, _ => Some s
  | String a p', String b s' => if Ascii.eqb a b then drop_prefix p' s' else None
  | String _ _, EmptyString => None
  end.

(** The longest prefix of [s] whose characters satisfy [f] *)
Fixpoint take_while (f : ascii -> bool) (s : string) : string :=
  match s with
  | EmptyString => EmptyString
  | String c s' => if f c then String c (take_while f s') else EmptyString
  end.

(** [str(v)] of an optional string: [None] prints as its name *)
Definition of_option (o : option string) : string :=
  match o with
  | Some s => s
  | None => "None"
  end.

End Str.

Definition newline : ascii := ascii_of_N 10.

(** ** URL *)

(** The class [[^/?#]] *)
Definition shortcode_char (c : ascii) : bool :=
  negb (Ascii.eqb c "/" || Ascii.eqb c "?" || Ascii.eqb c "#")%char.

(** [(kind)/([^/?#]+)] at the start of [s] *)
Definition match_kind (kind s : string) : option (string * string) :=
  match Str.drop_prefix (kind ++ "/")%string s with
  | Some rest =>
      match Str.take_while shortcode_char rest with
      | EmptyString => None
      | code => Some (kind, code)
      end
  | None => None
  end.

(** The pattern [instagram\.com/(reel|p)/([^/?#]+)] at the start of [s] *)
Definition match_here (s : string) : option (string * string) :=
  match Str.drop_prefix "instagram.com/" s with
  | Some rest =>
      match match_kind "reel" rest with
      | Some m => Some m
      | None => match_kind "p" rest
      end
  | None => None
  end.

(** [re.search]: the match at the leftmost position that has one *)
Fixpoint re_search (s : string) : option (string * string) :=
  match match_here s with
  | Some m => Some m
  | None =>
      match s with
      | EmptyString => None
      | String _ s' => re_search s'
      end
  end.

Definition extract_media (url : string) : option (string * string) := re_search url.

Definition build_headers (referer_url cookies_str : string) : list (string * string) :=
  [("User-Agent",
    ("Mozilla/5.0 (Linux; Android 13; SM-A125F) AppleWebKit/537.36 " ++
     "(KHTML, like Gecko) Chrome/122.0.0.0 Mobile Safari/537.36")%string);
   ("Accept", "*/*");
   ("Accept-Language", "en-US,en;q=0.9");
   ("X-Requested-With", "XMLHttpRequest");
   ("X-IG-App-ID", "936619743392459");
   ("Referer", referer_url);
   ("Cookie", cookies_str)].

(** ** Filter and dedup stage *)

(** A hashable value up to Python's equality: [True == 1] and
    [False == 0], and they hash alike. *)
Inductive hkey : Type :=
| HNone
| HNum (n : Z)
| HStr (s : string).

#[global] Instance hkey_eq_dec : EqDecision hkey.
Proof. solve_decision. Defined.

#[global] Instance hkey_countable : Countable hkey.
Proof.
  refine (inj_countable'
    (fun k => match k with
              | HNone => inl tt
              | HNum n => inr (inl n)
              | HStr s => inr (inr s)
              end)
    (fun x => match x with
              | inl _ => HNone
              | inr (inl n) => HNum n
              | inr (inr s) => HStr s
              end) _).
  intros k. destruct k; reflexivity.
Defined.

(** [hash(v)]: lists and dicts are unhashable. *)
Definition py_hash (v : pyval) : outcome hkey :=
  match v with
  | PNone => Ok HNone
  | PBool b => Ok (HNum (if b then 1 else 0))
  | PInt n => Ok (HNum n)
  | PStr s => Ok (HStr s)
  | PList _ | PDict _ => Raise TypeError
  end.

(** [k is None] *)
Definition is_none (v : pyval) : bool :=
  match v with PNone => true | _ => false end.

(** The loop of [dedupe_by_key] *)
Fixpoint dedupe_loop (key : string) (items : list pyval) (seen : gset hkey)
    (result : list pyval) : outcome (list pyval) :=
  match items with
  | [] => Ok result
  | it :: rest =>
      k <- Py.get it key PNone ;;
      if is_none k then dedupe_loop key rest seen result
      else
        h <- py_hash k ;;
        if decide (h ∈ seen) then dedupe_loop key rest seen result
        else dedupe_loop key rest ({[h]} ∪ seen) (result ++ [it])
  end.

Definition dedupe_by_key (items : list pyval) (key : string) : outcome (list pyval) :=
  dedupe_loop key items ∅ [].

(** The loop of [to_usernames] *)
Fixpoint to_usernames_loop (comments : list pyval) (seen : gset hkey)
    (out : list pyval) : outcome (list pyval) :=
  match comments with
  | [] => Ok out
  | c :: rest =>
      u <- Py.get c "username" PNone ;;
      if Py.truthy u then
        h <- py_hash u ;;
        if decide (h ∈ seen) then to_usernames_loop rest seen out
        else to_usernames_loop rest ({[h]} ∪ seen) (out ++ [u])
      else to_usernames_loop rest seen out
  end.

Definition to_usernames (comments : list pyval) : outcome (list pyval) :=
  to_usernames_loop comments ∅ [].

(** The loop of [usernames_with_duplicates] *)
Fixpoint usernames_loop (comments out : list pyval) : outcome (list pyval) :=
  match comments with
  | [] => Ok out
  | c :: rest =>
      u <- Py.get c "username" PNone ;;
      usernames_loop rest (if Py.truthy u then out ++ [u] else out)
  end.

Definition usernames_with_duplicates (comments : list pyval) : outcome (list pyval) :=
  usernames_loop comments [].

(** ** Sorting *)

(** [lambda s: s.lower()]: only a string has the method. *)
Definition lower_key (v : pyval) : outcome string :=
  match v with
  | PStr s => Ok (Str.lower s)
  | _ => Raise AttributeError
  end.

(** The key of every element, computed before any comparison. *)
Fixpoint with_keys (l : list pyval) : outcome (list (string * pyval)) :=
  match l with
  | [] => Ok []
  | v :: rest =>
      k <- lower_key v ;;
      kvs <- with_keys rest ;;
      Ok ((k, v) :: kvs)
  end.

(** [x] goes in front of the first element whose key is not below its
    own: elements with equal keys keep their order. *)
Fixpoint insert_sorted (x : string * pyval) (l : list (string * pyval))
  : list (string * pyval) :=
  match l with
  | [] => [x]
  | y :: l' =>
      if String.ltb (fst y) (fst x) then y :: insert_sorted x l'
      else x :: y :: l'
  end.

(** The stable sort by key of [list.sort]. *)
Fixpoint stable_sort (l : list (string * pyval)) : list (string * pyval) :=
  match l with
  | [] => []
  | x :: l' => insert_sorted x (stable_sort l')
  end.

(** [l.sort(key=lambda s: s.lower())] *)
Definition sort_by_lower (l : list pyval) : outcome (list pyval) :=
  kvs <- with_keys l ;;
  Ok (map snd (stable_sort kvs)).

(** ** Output Writer *)

Inductive data_format : Type := Usernames | Detailed.
Inductive file_format : Type := Json | Csv | Txt.

(** A piece of an f-string: fixed text, or a value printed by [str]. *)
Inductive piece : Type :=
| Lit (s : string)
| Fmt (v : pyval).

(** What is handed to the writer of each format: the value given to
    [json.dump], the rows given to [csv.writer], the lines of text. *)
Inductive document : Type :=
| JsonDoc (payload : pyval)
| CsvDoc (rows : list (list pyval))
| TxtDoc (lines : list (list piece)).

(** The cell [(c.get("text") or "").replace("\n", " ").strip()] *)
Definition text_cell (c : pyval) : outcome pyval :=
  text <- Py.get c "text" PNone ;;
  match Py.or_ text (PStr "") with
  | PStr s => Ok (PStr (Str.strip (Str.replace newline " " s)))
  | _ => Raise AttributeError
  end.

(** [len(c.get("replies", [])) if isinstance(c.get("replies"), list) else 0] *)
Definition reply_count (c : pyval) : outcome Z :=
  replies <- Py.get c "replies" PNone ;;
  if Py.is_list replies then
    replies <- Py.get c "replies" (PList []) ;;
    match replies with
    | PList xs => Ok (Z.of_nat (length xs))
    | _ => Raise TypeError
    end
  else Ok 0.

(** The row of one comment in the detailed CSV file *)
Definition csv_row (c : pyval) : outcome (list pyval) :=
  n <- reply_count c ;;
  id <- Py.get c "id" PNone ;;
  username <- Py.get c "username" PNone ;;
  text <- text_cell c ;;
  like_count <- Py.get c "like_count" PNone ;;
  created_at <- Py.get c "created_at" PNone ;;
  Ok [id; username; text; like_count; created_at; PInt n].

(** The line of one comment in the detailed text file *)
Definition txt_line (c : pyval) : outcome (list piece) :=
  username <- Py.get c "username" PNone ;;
  text <- Py.get c "text" PNone ;;
  like_count <- Py.get c "like_count" PNone ;;
  Ok [Lit "@"; Fmt username; Lit ": "; Fmt text; Lit " (likes="; Fmt like_count;
      Lit (String ")" (String newline EmptyString))].

(** A [for] loop that writes one thing per element *)
Fixpoint for_each {A : Type} (f : pyval -> outcome A) (l : list pyval)
  : outcome (list A) :=
  match l with
  | [] => Ok []
  | x :: rest =>
      y <- f x ;;
      ys <- for_each f rest ;;
      Ok (y :: ys)
  end.

(** [write_output]; [disk_fails] says whether creating the directory or
    writing the file raises [OSError]. *)
Definition write_output (data : data_format) (file : file_format)
    (output_path : string) (comments : list pyval)
    (usernames : option (list pyval)) (disk_fails : bool) : outcome document :=
  if disk_fails then Raise OSError
  else
    match data with
    | Usernames =>
        payload <- match usernames with
                   | Some us => Ok us
                   | None => to_usernames comments
                   end ;;
        match file with
        | Json => Ok (JsonDoc (PList payload))
        | Csv => Ok (CsvDoc ([PStr "username"] :: map (fun u => [u]) payload))
        | Txt => Ok (TxtDoc (map (fun u => [Fmt u; Lit (String newline EmptyString)])
                               payload))
        end
    | Detailed =>
        match file with
        | Json => Ok (JsonDoc (PList comments))
        | Csv =>
            rows <- for_each csv_row comments ;;
            Ok (CsvDoc ([PStr "id"; PStr "username"; PStr "text"; PStr "like_count";
                         PStr "created_at"; PStr "reply_count"] :: rows))
        | Txt =>
            lines <- for_each txt_line comments ;;
            Ok (TxtDoc lines)
        end
    end.

(** ** The command *)

Module Args.
Record t : Type := {
  url : option string;
  output : string;
  data_format : data_format;
  file_format : file_format;
  per_page : Z;
  max_comments : option Z;
  min_likes : Z;
  include_replies : bool;
  dedupe : bool;
  no_progress : bool
}.
End Args.

(** What the command finds around it: the four variables of the
    environment, the line typed when the URL is asked for ([None] at the
    end of input), the replies of the service, the state of the disk. *)
Record world : Type := {
  SESSIONID : option string;
  DS_USER_ID : option string;
  CSRFTOKEN : option string;
  MID : option string;
  stdin : option string;
  service : list reply;
  disk_fails : bool
}.

(** [not val] for a variable of the environment *)
Definition unset (val : option string) : bool :=
  match val with
  | Some s => String.eqb s ""
  | None => true
  end.

Definition validate_env (w : world) : outcome unit :=
  let missing :=
    List.filter (fun nv => unset (snd nv))
      [("SESSIONID", SESSIONID w); ("DS_USER_ID", DS_USER_ID w);
       ("CSRFTOKEN", CSRFTOKEN w); ("MID", MID w)] in
  match missing with
  | [] => Ok tt
  | _ => sys_exit 2
  end.

(** [main], the block that removes duplicates in detailed mode *)
Definition detailed_records (a : Args.t) (comments : list pyval)
  : outcome (list pyval) :=
  match Args.data_format a with
  | Detailed =>
      if Args.dedupe a then dedupe_by_key comments "id" else Ok comments
  | Usernames => Ok comments
  end.

(** [main], the block that prepares [usernames_payload] *)
Definition usernames_payload (a : Args.t) (comments : list pyval)
  : outcome (option (list pyval)) :=
  match Args.data_format a with
  | Usernames =>
      payload <- (if Args.dedupe a then to_usernames comments
                  else usernames_with_duplicates comments) ;;
      payload <- sort_by_lower payload ;;
      Ok (Some payload)
  | Detailed => Ok None
  end.

Record saved : Type := {
  saved_count : nat;
  saved_path : string;
  saved_doc : document
}.

(** [main] from the call of [write_output] on *)
Definition save (a : Args.t) (w : world) (comments : list pyval)
    (payload : option (list pyval)) : outcome saved :=
  doc <- match write_output (Args.data_format a) (Args.file_format a)
                 (Args.output a) comments payload (disk_fails w) with
         | Raise OSError => sys_exit 1
         | o => o
         end ;;
  let count :=
    match Args.data_format a, payload with
    | Usernames, Some us => length us
    | _, _ => length comments
    end in
  Ok {| saved_count := count; saved_path := Args.output a; saved_doc := doc |}.

(** [input()] *)
Definition input (w : world) : outcome string :=
  match stdin w with
  | Some line => Ok line
  | None => Raise EOFError
  end.

(** [main], the URL given on the command line or typed in *)
Definition read_url (a : Args.t) (w : world) : outcome string :=
  match Args.url a with
  | Some (String c u) => Ok (String c u)
  | _ => line <- input w ;; Ok (Str.strip line)
  end.

(** [main] up to the call of [fetch_parent_comments]: the short code and
    the headers of the requests *)
Definition prepare (a : Args.t) (w : world)
  : outcome (string * list (string * string)) :=
  url <- read_url a w ;;
  match extract_media url with
  | None => sys_exit 2
  | Some (media_type, shortcode) =>
      _ <- validate_env w ;;
      let cookies_str :=
        ("sessionid=" ++ Str.of_option (SESSIONID w) ++
         "; ds_user_id=" ++ Str.of_option (DS_USER_ID w) ++
         "; csrftoken=" ++ Str.of_option (CSRFTOKEN w) ++
         "; mid=" ++ Str.of_option (MID w) ++ ";")%string in
      let referer_url :=
        ("https://www.instagram.com/" ++ media_type ++ "/" ++ shortcode ++ "/")%string in
      Ok (shortcode, build_headers referer_url cookies_str)
  end.

(** [main] from the parsed arguments on: [a] is what [parse_args]
    returned.  The parser itself, which prints its message and leaves
    with status 2 on an option or a value it does not accept, comes
    before and is not part of it. *)
Definition main (a : Args.t) (w : world) : list request * run saved :=
  match prepare a w with
  | Raise e => ([], Failed e)
  | Ok (shortcode, headers) =>
      let (log, fetched) :=
        fetch_parent_comments shortcode headers (Z.max 1 (Args.per_page a))
          (Args.include_replies a) (Args.max_comments a)
          (Z.max 0 (Args.min_likes a)) (service w) in
      (log,
       match fetched with
       | AwaitingPage st => AwaitingPage st
       | Failed e => Failed e
       | Returned comments =>
           match (comments <- detailed_records a comments ;;
                  payload <- usernames_payload a comments ;;
                  save a w comments payload) with
           | Ok s => Returned s
           | Raise e => Failed e
           end
       end)
  end.

(** The status of the process after a run that ended *)
Definition status {A : Type} (r : run A) : option Z :=
  match r with
  | Returned _ => Some 0
  | Failed e => Some (exit_status (@Raise A e))
  | AwaitingPage _ => None
  end.

(** ** Vocabulary of the statements *)

(** The hash of the key of [it] under [key], when [dedupe_by_key] gets
    as far as looking it up in [seen]: the key is there, is not [None]
    and is hashable. *)
Definition key_hash (key : string) (it : pyval) : option hkey :=
  match Py.get it key PNone with
  | Ok k =>
      if is_none k then None
      else match py_hash k with
           | Ok h => Some h
           | Raise _ => None
           end
  | Raise _ => None
  end.

(** [it] has a key that hashes to [h] *)
Definition has_key (key : string) (h : hkey) (it : pyval) : bool :=
  bool_decide (key_hash key it = Some h).

(** The items of [l] have keys, different from one another and from
    those in [seen]. *)
Inductive distinct_from (key : string) : gset hkey -> list pyval -> Prop :=
| distinct_nil seen : distinct_from key seen []
| distinct_cons seen it l h :
    key_hash key it = Some h ->
    h ∉ seen ->
    distinct_from key ({[h]} ∪ seen) l ->
    distinct_from key seen (it :: l).


(** Case-insensitive order of two names: the order of their lower-case
    forms, character by character. *)
Definition ci_le (s t : string) : Prop :=
  String.leb (Str.lower s) (Str.lower t) = true.

(** The order of the keys of two elements being sorted *)
Definition key_le (x y : string * pyval) : Prop :=
  String.leb (fst x) (fst y) = true.

(** The document [write_output] makes of a list of names *)
Definition usernames_doc (file : file_format) (names : list string) : document :=
  match file with
  | Json => JsonDoc (PList (map PStr names))
  | Csv => CsvDoc ([PStr "username"] :: map (fun n => [PStr n]) names)
  | Txt => TxtDoc (map (fun n => [Fmt (PStr n); Lit (String newline EmptyString)]) names)
  end.

(** The string in a value, for a value that is one *)
Definition str_of (v : pyval) : string :=
  match v with
  | PStr s => s
  | _ => EmptyString
  end.

(** Every character of [s] satisfies [f]. *)
Fixpoint all_chars (f : ascii -> bool) (s : string) : bool :=
  match s with
  | EmptyString => true
  | String c s' => f c && all_chars f s'
  end.

Definition first_char (s : string) : option ascii :=
  match s with
  | EmptyString => None
  | String c _ => Some c
  end.

Fixpoint last_char (s : string) : option ascii :=
  match s with
  | EmptyString => None
  | String c s' =>
      match last_char s' with
      | Some d => Some d
      | None => Some c
      end
  end.

(** A newline becomes a space, any other character stays. *)
Definition unbreak (c : ascii) : ascii :=
  if Ascii.eqb c newline then " "%char else c.

(** The value of a field of a record, [None] when the field is absent *)
Definition field (k : string) (kvs : list (string * pyval)) : pyval :=
  match Py.lookup k kvs with
  | Some v => v
  | None => PNone
  end.

(** The header of the detailed CSV file *)
Definition csv_header : list pyval :=
  [PStr "id"; PStr "username"; PStr "text"; PStr "like_count";
   PStr "created_at"; PStr "reply_count"].

(** The like count the filter compares: the one of the record, 0 when
    it is absent, [None] or another false value. *)
Definition likes_or_zero (item : pyval) : option Z :=
  match Py.get item "like_count" PNone with
  | Ok like_count => Py.as_int (Py.or_ like_count (PInt 0))
  | Raise _ => None
  end.

(** The records of the edges that can be read and have enough likes, in
    the order of the edges *)
Fixpoint kept (include_replies : bool) (min_likes : Z) (edges : list pyval)
  : list pyval :=
  match edges with
  | [] => []
  | edge :: rest =>
      match edge_item include_replies min_likes edge with
      | Ok (item, true) => item :: kept include_replies min_likes rest
      | _ => kept include_replies min_likes rest
      end
  end.

(** What makes the loop stop with what it has: [shortcode_media] is
    looked up and found absent or false, or it is a dict without the
    comments under it, which raises [KeyError].  The lookup itself has
    to succeed: a reply whose [data] is [None], or whose comments
    container is [None], is no such reply, [get] is called on [None]
    there and [AttributeError] is not caught by the loop. *)
Inductive page_fault (data : pyval) : Prop :=
| container_missing media :
    shortcode_media data = Ok media ->
    Py.truthy media = false ->
    page_fault data
| comments_missing media :
    shortcode_media data = Ok media ->
    Py.truthy media = true ->
    Py.getitem media "edge_media_to_parent_comment" = Raise KeyError ->
    page_fault data.

(** [c] is a dict whose [username] is absent, [None] or a string. *)
Definition plain_username (c : pyval) : bool :=
  match c with
  | PDict kvs =>
      match Py.lookup "username" kvs with
      | None | Some PNone | Some (PStr _) => true
      | _ => false
      end
  | _ => false
  end.

Definition is_str (v : pyval) : bool :=
  match v with
  | PStr _ => true
  | _ => false
  end.

(** A reply that [graphql_request] takes for a failure: a status other
    than 200, or a body that is not JSON. *)
Inductive bad_reply : reply -> Prop :=
| bad_status code json : code <> 200 -> bad_reply (Reply code json)
| bad_body : bad_reply (Reply 200 None).

(** One of the four variables of the environment is unset or empty. *)
Definition env_incomplete (w : world) : bool :=
  unset (SESSIONID w) || unset (DS_USER_ID w) || unset (CSRFTOKEN w) || unset (MID w).

(** ** Sample replies and runs *)

Module Sample.

Definition comment (id username text : string) (like_count : pyval) : pyval :=
  PDict [("node",
          PDict [("id", PStr id);
                 ("owner", PDict [("username", PStr username)]);
                 ("text", PStr text);
                 ("like_count", like_count);
                 ("created_at", PInt 1700000000)])].

(** A comment as [parse_comment_node] records it *)
Definition record (id : pyval) (username text : string) (like_count : pyval) : pyval :=
  PDict [("id", id); ("username", PStr username); ("text", PStr text);
         ("like_count", like_count); ("created_at", PInt 1700000000)].

Definition page_with (edges : list pyval) (has_next_page : bool)
    (end_cursor : pyval) : pyval :=
  PDict [("data",
          PDict [("shortcode_media",
                  PDict [("edge_media_to_parent_comment",
                          PDict [("edges", PList edges);
                                 ("page_info",
                                  PDict [("has_next_page", PBool has_next_page);
                                         ("end_cursor", end_cursor)])])])])].

Definition first_page : pyval :=
  page_with [comment "1" "Bob" "first" (PInt 3);
             comment "2" "alice" "second" PNone;
             comment "3" "carl" "third" (PInt 7)] true (PStr "c1").

Definition last_page : pyval :=
  page_with [comment "4" "bob" "fourth" (PInt 3);
             comment "1" "Bob" "first" (PInt 3)] false PNone.

(** A page of eight comments with four likes each *)
Definition page_of_eight : pyval :=
  page_with (map (fun id => comment id "dora" "hello" (PInt 4))
               ["1"; "2"; "3"; "4"; "5"; "6"; "7"; "8"]) true (PStr "c8").

(** A reply without [shortcode_media], as for a private post *)
Definition no_media : pyval := PDict [("data", PDict []); ("status", PStr "ok")].

(** A reply whose [shortcode_media] has no comments under it *)
Definition no_comments : pyval :=
  PDict [("data", PDict [("shortcode_media", PDict [("id", PStr "42")])])].

Definition args : Args.t :=
  {| Args.url := Some "https://www.instagram.com/p/XY/";
     Args.output := "out/listComments.json";
     Args.data_format := Usernames;
     Args.file_format := Json;
     Args.per_page := 50;
     Args.max_comments := None;
     Args.min_likes := 0;
     Args.include_replies := false;
     Args.dedupe := true;
     Args.no_progress := true |}.

Definition detailed (dedupe : bool) : Args.t :=
  {| Args.url := Args.url args;
     Args.output := Args.output args;
     Args.data_format := Detailed;
     Args.file_format := Csv;
     Args.per_page := 50;
     Args.max_comments := None;
     Args.min_likes := 0;
     Args.include_replies := false;
     Args.dedupe := dedupe;
     Args.no_progress := true |}.

Definition world_with (service : list reply) (disk_fails : bool) : world :=
  {| SESSIONID := Some "s"; DS_USER_ID := Some "17"; CSRFTOKEN := Some "t";
     MID := Some "m"; stdin := None;
     service := service; disk_fails := disk_fails |}.

End Sample.

(** ** Vocabulary of the further statements *)

(** A record as [parse_comment_node] makes it: the five fields in their
    order, and the list of replies when replies are asked for. *)
Definition is_record (include_replies : bool) (item : pyval) : Prop :=
  exists id username text like_count created_at replies,
    item = PDict ([("id", id); ("username", username); ("text", text);
                   ("like_count", like_count); ("created_at", created_at)] ++
                  if include_replies then [("replies", PList replies)] else []).

(** The reply edges of a node, as [parse_comment_node] walks them *)
Definition reply_edges_of (node : pyval) : outcome (list pyval) :=
  replies_info <- Py.get node "edge_threaded_comments" (PDict []) ;;
  reply_edges <- Py.get replies_info "edges" (PList []) ;;
  Py.iter reply_edges.

(** The exceptions a value of the wrong shape raises *)
Definition shape_error (e : exn) : Prop := e = AttributeError \/ e = TypeError.

(** Whatever [o] raises is among [R]. *)
Definition raises_only {A : Type} (R : exn -> Prop) (o : outcome A) : Prop :=
  forall e, o = Raise e -> R e.

(** The cursor a reply gives for the page after it *)
Definition end_cursor_of (data : pyval) : outcome pyval :=
  media <- shortcode_media data ;;
  page <- page_edges media ;;
  page_info <- Py.get (fst page) "page_info" (PDict []) ;;
  Py.get page_info "end_cursor" PNone.

(** The cursor after a reply, [None] for a reply that gives none *)
Definition cursor_after (r : reply) : pyval :=
  match r with
  | Reply _ (Some data) =>
      match end_cursor_of data with
      | Ok c => c
      | Raise _ => PNone
      end
  | _ => PNone
  end.

(** The request for the page at [cursor]: the variable [after] is there
    when the cursor is a true value. *)
Definition request_for (shortcode : string) (headers : list (string * string))
    (per_page : Z) (cursor : pyval) : request :=
  {| rq_query_hash := PARENT_QUERY_HASH;
     rq_variables :=
       [("shortcode", PStr shortcode); ("first", PInt per_page)] ++
       (if Py.truthy cursor then [("after", cursor)] else []);
     rq_headers := headers |}.

(** [data] is a page: it has the comments container with the edges [es]
    and a [page_info] object saying [next_page] and [end_cursor]. *)
Definition page_shape (data : pyval) (es : list pyval)
    (next_page end_cursor : pyval) : Prop :=
  exists media edge_info page_info,
    shortcode_media data = Ok media /\
    Py.truthy media = true /\
    page_edges media = Ok (edge_info, es) /\
    Py.get edge_info "page_info" (PDict []) = Ok (PDict page_info) /\
    field "has_next_page" page_info = next_page /\
    field "end_cursor" page_info = end_cursor.

(** Every edge of [es] can be read. *)
Definition readable (include_replies : bool) (min_likes : Z) (es : list pyval) : bool :=
  forallb (fun e => match edge_item include_replies min_likes e with
                    | Ok _ => true
                    | Raise _ => false
                    end) es.

(** A script of pages, each but the last announcing a next page, with
    the records kept from all of them. *)
Inductive page_chain (include_replies : bool) (min_likes : Z)
  : list reply -> list pyval -> Prop :=
| chain_last data es next_page end_cursor :
    page_shape data es next_page end_cursor ->
    readable include_replies min_likes es = true ->
    Py.truthy next_page = false ->
    page_chain include_replies min_likes [Reply 200 (Some data)]
      (kept include_replies min_likes es)
| chain_more data es next_page end_cursor script all :
    page_shape data es next_page end_cursor ->
    readable include_replies min_likes es = true ->
    Py.truthy next_page = true ->
    page_chain include_replies min_likes script all ->
    page_chain include_replies min_likes (Reply 200 (Some data) :: script)
      (kept include_replies min_likes es ++ all).

(** An object with none of the wrong shapes under [owner] and
    [like_count] *)
Definition good_node (node : pyval) : bool :=
  match node with
  | PDict kvs =>
      match Py.lookup "owner" kvs with
      | None | Some (PDict _) => true
      | _ => false
      end &&
      match Py.lookup "like_count" kvs with
      | None | Some PNone | Some (PInt _) | Some (PBool _) => true
      | _ => false
      end
  | _ => false
  end.

(** A reply edge whose node, when it has one, is an object with an
    object as owner, when it has one *)
Definition good_reply_edge (e : pyval) : bool :=
  match e with
  | PDict kvs =>
      match Py.lookup "node" kvs with
      | None => true
      | Some (PDict node) =>
          match Py.lookup "owner" node with
          | None | Some (PDict _) => true
          | _ => false
          end
      | _ => false
      end
  | _ => false
  end.

(** The replies of a node are absent, or a list of good reply edges. *)
Definition good_replies (node : pyval) : bool :=
  match node with
  | PDict kvs =>
      match Py.lookup "edge_threaded_comments" kvs with
      | None => true
      | Some (PDict info) =>
          match Py.lookup "edges" info with
          | None => true
          | Some (PList es) => forallb good_reply_edge es
          | _ => false
          end
      | _ => false
      end
  | _ => false
  end.

(** An edge of the documented shape *)
Definition good_edge (include_replies : bool) (e : pyval) : bool :=
  match e with
  | PDict kvs =>
      match Py.lookup "node" kvs with
      | None => true
      | Some node =>
          good_node node && (negb include_replies || good_replies node)
      end
  | _ => false
  end.

(** Values that can be hashed, with hashes different from one another
    and from those in [seen] *)
Inductive fresh_from : gset hkey -> list pyval -> Prop :=
| fresh_nil seen : fresh_from seen []
| fresh_cons seen u l h :
    py_hash u = Ok h ->
    h ∉ seen ->
    fresh_from ({[h]} ∪ seen) l ->
    fresh_from seen (u :: l).

(** Two values that a Python set takes for one: both can be hashed, and
    to the same key.  For two strings that is equality. *)
Definition same_name (u v : pyval) : bool :=
  match py_hash u, py_hash v with
  | Ok h, Ok h' => bool_decide (h = h')
  | _, _ => false
  end.

(** A list without its repeats: each value stays at the place where it
    occurs first, and is taken out of what follows. *)
Fixpoint first_occurrences (l : list pyval) : list pyval :=
  match l with
  | [] => []
  | u :: rest =>
      u :: List.filter (fun v => negb (same_name u v)) (first_occurrences rest)
  end.

(** The values that can be hashed and whose hash is not in [seen] *)
Definition unseen (seen : gset hkey) (v : pyval) : bool :=
  match py_hash v with
  | Ok h => bool_decide (h ∉ seen)
  | Raise _ => false
  end.

(** The username of a comment, when it has one that is a true value
    (not [None], not the empty string) *)
Definition username_of (c : pyval) : option pyval :=
  match Py.get c "username" PNone with
  | Ok u => if Py.truthy u then Some u else None
  | Raise _ => None
  end.

(** The number of records of a document: the elements of the JSON
    array, the rows given to the CSV writer after the header, the pieces
    of text written to the text file.  A piece ends with a newline and
    is one line of the file unless the text or the name in it holds a
    newline of its own: the count is of records, not of lines. *)
Definition entries (d : document) : nat :=
  match d with
  | JsonDoc (PList xs) => length xs
  | JsonDoc _ => 0
  | CsvDoc rows => length rows - 1
  | TxtDoc lines => length lines
  end.

(** The key [sort_by_lower] sorts a value by *)
Definition sort_key (v : pyval) : string := Str.lower (str_of v).

(** * Properties *)

(** ** Deduplication *)

Section Dedupe.

Variable key : string.

Lemma dedupe_loop_result items : forall seen result,
  dedupe_loop key items seen result =
  (r <- dedupe_loop key items seen [] ;; Ok (result ++ r)%list).
Proof.
  induction items as [|it rest IH]; intros seen result; simpl.
  - now rewrite app_nil_r.
  - destruct (Py.get it key PNone) as [k|e]; simpl; [|reflexivity].
    destruct (is_none k); [apply IH|].
    destruct (py_hash k) as [h|e]; simpl; [|reflexivity].
    destruct (decide (h ∈ seen)); [apply IH|].
    rewrite (IH _ (result ++ [it])), (IH _ [it]).
    destruct (dedupe_loop key rest ({[h]} ∪ seen) []); simpl; [|reflexivity].
    now rewrite <- app_assoc.
Qed.

(** One step of the loop, by cases on the key of the first item. *)
Lemma dedupe_loop_cons it rest seen res :
  dedupe_loop key (it :: rest) seen [] = Ok res ->
  (key_hash key it = None /\ Py.get it key PNone = Ok PNone /\
   dedupe_loop key rest seen [] = Ok res) \/
  (exists h, key_hash key it = Some h /\ (h ∈ seen) /\
             dedupe_loop key rest seen [] = Ok res) \/
  (exists h res', key_hash key it = Some h /\ (h ∉ seen) /\
                  dedupe_loop key rest ({[h]} ∪ seen) [] = Ok res' /\
                  res = it :: res').
Proof.
  unfold key_hash. simpl.
  destruct (Py.get it key PNone) as [k|e]; simpl; [|discriminate].
  destruct (is_none k) eqn:Hk.
  - destruct k; try discriminate. intros H. left. auto.
  - destruct (py_hash k) as [h|e]; simpl; [|discriminate].
    destruct (decide (h ∈ seen)) as [Hin|Hin]; intros H.
    + right; left. exists h. auto.
    + right; right. rewrite dedupe_loop_result in H.
      destruct (dedupe_loop key rest ({[h]} ∪ seen) []) as [r|e] eqn:E; [|discriminate].
      simpl in H. injection H as <-. exists h, r. repeat split; assumption.
Qed.

Lemma dedupe_loop_distinct items : forall seen res,
  dedupe_loop key items seen [] = Ok res -> distinct_from key seen res.
Proof.
  induction items as [|it rest IH]; intros seen res H.
  - injection H as <-. constructor.
  - apply dedupe_loop_cons in H.
    destruct H as [(_ & _ & H)|[(h & _ & _ & H)|(h & res' & Hk & Hn & H & ->)]];
      eauto using distinct_from.
Qed.

Lemma distinct_from_fixed l : forall seen,
  distinct_from key seen l -> dedupe_loop key l seen [] = Ok l.
Proof.
  induction l as [|it l IH]; intros seen H; [reflexivity|].
  inversion H as [|? ? ? h Hk Hn Hl]; subst. simpl.
  unfold key_hash in Hk.
  destruct (Py.get it key PNone) as [k|e]; [|discriminate]. simpl.
  destruct (is_none k); [discriminate|].
  destruct (py_hash k) as [h'|e]; [|discriminate]. simpl.
  injection Hk as ->.
  destruct (decide (h ∈ seen)); [contradiction|].
  rewrite dedupe_loop_result, (IH _ Hl). reflexivity.
Qed.

Lemma dedupe_loop_sublist items : forall seen res,
  dedupe_loop key items seen [] = Ok res -> sublist res items.
Proof.
  induction items as [|it rest IH]; intros seen res H.
  - injection H as <-. constructor.
  - apply dedupe_loop_cons in H.
    destruct H as [(_ & _ & H)|[(h & _ & _ & H)|(h & res' & Hk & Hn & H & ->)]].
    + apply sublist_cons, (IH _ _ H).
    + apply sublist_cons, (IH _ _ H).
    + apply sublist_skip, (IH _ _ H).
Qed.

(** Of the items with a given key, the result has the first, unless the
    key was seen before. *)
Lemma dedupe_loop_first h items : forall seen res,
  dedupe_loop key items seen [] = Ok res ->
  List.filter (has_key key h) res =
  if decide (h ∈ seen) then [] else firstn 1 (List.filter (has_key key h) items).
Proof.
  induction items as [|it rest IH]; intros seen res H.
  - injection H as <-. simpl. now destruct (decide (h ∈ seen)).
  - apply dedupe_loop_cons in H.
    destruct H as [(Hk & _ & H)|[(h' & Hk & Hin & H)|(h' & res' & Hk & Hn & H & ->)]];
      simpl; change (has_key key h it) with (bool_decide (key_hash key it = Some h));
      rewrite Hk.
    + rewrite bool_decide_eq_false_2 by discriminate. apply (IH _ _ H).
    + rewrite (IH _ _ H). destruct (decide (h ∈ seen)) as [|Hh]; [reflexivity|].
      rewrite bool_decide_eq_false_2; [reflexivity|].
      intros [= ->]. contradiction.
    + destruct (decide (h' = h)) as [->|Hne].
      * rewrite !bool_decide_eq_true_2 by reflexivity.
        rewrite (IH _ _ H).
        destruct (decide (h ∈ {[h]} ∪ seen)) as [_|Hx]; [|set_solver].
        destruct (decide (h ∈ seen)); [contradiction|reflexivity].
      * rewrite !bool_decide_eq_false_2 by congruence.
        rewrite (IH _ _ H).
        destruct (decide (h ∈ {[h']} ∪ seen)) as [H1|H1];
          destruct (decide (h ∈ seen)) as [H2|H2];
          try reflexivity.
        -- apply elem_of_union in H1 as [H1|H1]; [|contradiction].
           apply elem_of_singleton in H1. congruence.
        -- exfalso. apply H1, elem_of_union. now right.
Qed.


End Dedupe.


(** C7. Deduplication by identifier is idempotent: for every list of
    records, applying [dedupe_by_key] with the key ["id"] twice gives the
    same sequence as applying it once (and the same exception, when the
    first pass raises one). *)
Theorem C7_dedupe_by_id_idempotent (items : list pyval) :
  (once <- dedupe_by_key items "id" ;; dedupe_by_key once "id") =
  dedupe_by_key items "id".
Proof.
  unfold dedupe_by_key.
  destruct (dedupe_loop "id" items ∅ []) as [res|e] eqn:E; simpl; [|reflexivity].
  apply distinct_from_fixed. eapply dedupe_loop_distinct, E.
Qed.



(** ** Sorting *)

Lemma ascii_compare_refl a : Ascii.compare a a = Eq.
Proof. unfold Ascii.compare. apply N.compare_refl. Qed.

Lemma ascii_compare_lt_trans a b c :
  Ascii.compare a b = Lt -> Ascii.compare b c = Lt -> Ascii.compare a c = Lt.
Proof.
  unfold Ascii.compare. rewrite !N.compare_lt_iff. apply N.lt_trans.
Qed.

Lemma string_compare_refl s : String.compare s s = Eq.
Proof.
  induction s as [|a s IH]; simpl; [reflexivity|].
  now rewrite ascii_compare_refl.
Qed.

Lemma string_compare_lt_trans s : forall t u,
  String.compare s t = Lt -> String.compare t u = Lt -> String.compare s u = Lt.
Proof.
  induction s as [|a s IH]; intros [|b t] [|c u]; simpl; try discriminate; auto.
  destruct (Ascii.compare a b) eqn:Eab; try discriminate;
    destruct (Ascii.compare b c) eqn:Ebc; try discriminate; intros H1 H2.
  - apply Ascii.compare_eq_iff in Eab, Ebc. subst.
    rewrite ascii_compare_refl. eauto.
  - apply Ascii.compare_eq_iff in Eab. subst. now rewrite Ebc.
  - apply Ascii.compare_eq_iff in Ebc. subst. now rewrite Eab.
  - now rewrite (ascii_compare_lt_trans _ _ _ Eab Ebc).
Qed.

Lemma string_leb_trans s t u :
  String.leb s t = true -> String.leb t u = true -> String.leb s u = true.
Proof.
  unfold String.leb.
  destruct (String.compare s t) eqn:Est; try discriminate;
    destruct (String.compare t u) eqn:Etu; try discriminate; intros _ _.
  - apply String.compare_eq_iff in Est, Etu. subst. now rewrite string_compare_refl.
  - apply String.compare_eq_iff in Est. subst. now rewrite Etu.
  - apply String.compare_eq_iff in Etu. subst. now rewrite Est.
  - now rewrite (string_compare_lt_trans _ _ _ Est Etu).
Qed.

(** When [y < x] fails, [x <= y] holds. *)
Lemma string_ltb_false_leb s t :
  String.ltb t s = false -> String.leb s t = true.
Proof.
  unfold String.ltb, String.leb. rewrite (String.compare_antisym t s).
  now destruct (String.compare s t).
Qed.

Lemma string_ltb_leb s t : String.ltb s t = true -> String.leb s t = true.
Proof. unfold String.ltb, String.leb. now destruct (String.compare s t). Qed.

Lemma insert_sorted_Forall (P : string * pyval -> Prop) x l :
  P x -> Forall P l -> Forall P (insert_sorted x l).
Proof.
  intros Hx Hl. induction Hl as [|y l Hy Hl IH]; simpl.
  - repeat constructor. exact Hx.
  - destruct (String.ltb (fst y) (fst x)); repeat constructor; auto.
Qed.

Lemma stable_sort_Forall (P : string * pyval -> Prop) l :
  Forall P l -> Forall P (stable_sort l).
Proof.
  induction 1 as [|x l Hx Hl IH]; simpl; [constructor|].
  now apply insert_sorted_Forall.
Qed.

Lemma insert_sorted_sorted x l :
  StronglySorted key_le l -> StronglySorted key_le (insert_sorted x l).
Proof.
  induction 1 as [|y l Hl IH Hy]; simpl.
  - repeat constructor.
  - destruct (String.ltb (fst y) (fst x)) eqn:E.
    + constructor; [exact IH|].
      apply insert_sorted_Forall; [|exact Hy].
      apply string_ltb_leb, E.
    + apply string_ltb_false_leb in E.
      constructor; [now constructor|].
      constructor; [exact E|].
      eapply List.Forall_impl; [|exact Hy].
      intros z Hz. unfold key_le in *. eapply string_leb_trans; eassumption.
Qed.

Lemma stable_sort_sorted l : StronglySorted key_le (stable_sort l).
Proof.
  induction l as [|x l IH]; simpl; [constructor|].
  now apply insert_sorted_sorted.
Qed.

Lemma insert_sorted_perm x l : Permutation (x :: l) (insert_sorted x l).
Proof.
  induction l as [|y l IH]; simpl; [reflexivity|].
  destruct (String.ltb (fst y) (fst x)); [|reflexivity].
  rewrite perm_swap. now apply perm_skip.
Qed.

(** The sort only reorders. *)
Lemma stable_sort_perm l : Permutation l (stable_sort l).
Proof.
  induction l as [|x l IH]; simpl; [reflexivity|].
  rewrite <- insert_sorted_perm. now apply perm_skip.
Qed.

Lemma with_keys_lower l : forall kvs,
  with_keys l = Ok kvs ->
  Forall (fun kv => snd kv = PStr (str_of (snd kv)) /\
                    fst kv = Str.lower (str_of (snd kv))) kvs /\
  map snd kvs = l.
Proof.
  induction l as [|v l IH]; simpl; intros kvs H.
  - injection H as <-. split; constructor.
  - destruct v; try discriminate. simpl in H.
    destruct (with_keys l) as [kvs'|e]; [|discriminate].
    injection H as <-. destruct (IH _ eq_refl) as [HF Hm].
    split; [constructor; auto|]. simpl. now rewrite Hm.
Qed.

(** What [sort_by_lower] returns is a list of strings in case-insensitive
    ascending order, a reordering of what it was given. *)
Lemma sort_by_lower_sorted l payload :
  sort_by_lower l = Ok payload ->
  exists names, payload = map PStr names /\ StronglySorted ci_le names /\
                Permutation l payload.
Proof.
  unfold sort_by_lower. destruct (with_keys l) as [kvs|e] eqn:E; [|discriminate].
  simpl. intros [= <-]. apply with_keys_lower in E as [HF Hm].
  exists (map (fun kv => str_of (snd kv)) (stable_sort kvs)).
  pose proof (stable_sort_sorted kvs) as HS.
  apply (stable_sort_Forall _ _) in HF.
  split; [|split].
  - clear HS. induction HF as [|kv r [H1 H2] HF IH]; simpl; [reflexivity|].
    now rewrite <- H1, IH.
  - induction HS as [|kv r HS IH Hkv]; simpl; [constructor|].
    inversion HF as [|? ? [_ Hk] HF']; subst.
    constructor; [now apply IH|].
    apply Forall_map. rewrite Forall_forall in Hkv |- *.
    intros z Hz. rewrite Forall_forall in HF'.
    specialize (Hkv z Hz). destruct (HF' z Hz) as [_ Hz'].
    unfold key_le, ci_le in *. now rewrite <- Hk, <- Hz'.
  - rewrite <- Hm. apply Permutation_map, stable_sort_perm.
Qed.

Lemma to_usernames_loop_strings comments : forall seen out,
  forallb plain_username comments = true ->
  forallb is_str out = true ->
  exists res, to_usernames_loop comments seen out = Ok res /\
              forallb is_str res = true.
Proof.
  induction comments as [|c rest IH]; intros seen out Hc Ho; simpl in *; [eauto|].
  apply andb_true_iff in Hc as [Hc Hrest].
  destruct c as [| | | | |kvs]; try discriminate. simpl in *.
  destruct (Py.lookup "username" kvs) as [[| | |u| |]|]; try discriminate;
    simpl; auto.
  destruct (negb (String.eqb u "")); [|auto].
  destruct (decide (HStr u ∈ seen)); [auto|].
  apply IH; [exact Hrest|]. rewrite forallb_app, Ho. reflexivity.
Qed.

Lemma usernames_loop_strings comments : forall out,
  forallb plain_username comments = true ->
  forallb is_str out = true ->
  exists res, usernames_loop comments out = Ok res /\
              forallb is_str res = true.
Proof.
  induction comments as [|c rest IH]; intros out Hc Ho; simpl in *; [eauto|].
  apply andb_true_iff in Hc as [Hc Hrest].
  destruct c as [| | | | |kvs]; try discriminate. simpl in *.
  destruct (Py.lookup "username" kvs) as [[| | |u| |]|]; try discriminate;
    simpl; auto.
  destruct (negb (String.eqb u "")); [|auto].
  apply IH; [exact Hrest|]. rewrite forallb_app, Ho. reflexivity.
Qed.

Lemma with_keys_strings l :
  forallb is_str l = true -> exists kvs, with_keys l = Ok kvs.
Proof.
  induction l as [|v l IH]; simpl; [eauto|].
  intros H. apply andb_true_iff in H as [Hv Hl].
  destruct v; try discriminate. simpl.
  destruct (IH Hl) as [kvs ->]. simpl. eauto.
Qed.

(** In usernames mode the payload is sorted whether or not duplicates
    are removed first. *)
Lemma usernames_payload_sorted (a : Args.t) (comments : list pyval) payload :
  Args.data_format a = Usernames ->
  usernames_payload a comments = Ok payload ->
  exists names, payload = Some (map PStr names) /\ StronglySorted ci_le names.
Proof.
  unfold usernames_payload. intros ->.
  destruct (if Args.dedupe a then to_usernames comments
            else usernames_with_duplicates comments) as [us|e]; [|discriminate].
  simpl. destruct (sort_by_lower us) as [sorted|e] eqn:E; [|discriminate].
  simpl. intros [= <-].
  destruct (sort_by_lower_sorted _ _ E) as (names & -> & HS & _). eauto.
Qed.

(** The payload is there whenever the usernames are strings (or are
    missing). *)
Lemma usernames_payload_returns (a : Args.t) (comments : list pyval) :
  Args.data_format a = Usernames ->
  forallb plain_username comments = true ->
  exists payload, usernames_payload a comments = Ok (Some payload).
Proof.
  unfold usernames_payload, to_usernames, usernames_with_duplicates. intros -> Hc.
  assert (Hus : exists us,
             (if Args.dedupe a then to_usernames_loop comments ∅ []
              else usernames_loop comments []) = Ok us /\
             forallb is_str us = true).
  { destruct (Args.dedupe a);
      [apply to_usernames_loop_strings|apply usernames_loop_strings]; auto. }
  destruct Hus as (us & -> & Hs). simpl.
  unfold sort_by_lower. destruct (with_keys_strings _ Hs) as [kvs ->].
  simpl. eauto.
Qed.

(** C8. For every collected sequence of records, the projection on
    usernames that is written to the output is in case-insensitive
    ascending order, with deduplication on or off: whenever a run in
    usernames mode saves a document, the document is the one made of a
    list of names sorted by their lower-case forms; and the sorted
    projection is there for every sequence of records whose usernames
    are strings or are missing. *)
Theorem C8_usernames_written_sorted (a : Args.t) :
  Args.data_format a = Usernames ->
  (forall (w : world) (log : list request) (s : saved),
      main a w = (log, Returned s) ->
      exists names,
        saved_doc s = usernames_doc (Args.file_format a) names /\
        StronglySorted ci_le names) /\
  (forall comments,
      forallb plain_username comments = true ->
      exists names,
        usernames_payload a comments = Ok (Some (map PStr names)) /\
        StronglySorted ci_le names).
Proof.
  intros Hd. split.
  - intros w log s. unfold main.
    destruct (prepare a w) as [[sc hd]|e]; [|discriminate].
    destruct (fetch_parent_comments _ _ _ _ _ _ _) as [log' [comments|e|st]];
      try discriminate.
    unfold detailed_records. rewrite Hd. simpl.
    destruct (usernames_payload a comments) as [payload|e] eqn:E; [|discriminate].
    destruct (usernames_payload_sorted _ _ _ Hd E) as (names & -> & HS).
    simpl. unfold save, write_output. rewrite Hd.
    destruct (disk_fails w); [discriminate|]. simpl. intros Hm.
    exists names. split; [|exact HS].
    destruct (Args.file_format a); simpl in *; injection Hm as _ <-; simpl;
      unfold usernames_doc; rewrite ?map_map; reflexivity.
  - intros comments Hc.
    destruct (usernames_payload_returns a comments Hd Hc) as [payload E].
    destruct (usernames_payload_sorted _ _ _ Hd E) as (names & [= ->] & HS).
    eauto.
Qed.

(** ** The text cell of the CSV file *)

Lemma replace_newline_get s : forall i,
  String.get i (Str.replace newline " " s) = option_map unbreak (String.get i s).
Proof.
  induction s as [|c s IH]; intros i; simpl; [reflexivity|].
  destruct (Ascii.eqb c newline) eqn:E; simpl; destruct i; simpl;
    unfold unbreak; rewrite ?E; auto.
Qed.

Lemma replace_newline_length s :
  String.length (Str.replace newline " " s) = String.length s.
Proof.
  induction s as [|c s IH]; simpl; [reflexivity|].
  destruct (Ascii.eqb c newline); simpl; f_equal; exact IH.
Qed.

Lemma lstrip_split s :
  exists l, s = (l ++ Str.lstrip s)%string /\ all_chars Str.is_space l = true.
Proof.
  induction s as [|c s (l & Hs & Hl)]; simpl.
  - now exists EmptyString.
  - destruct (Str.is_space c) eqn:E.
    + exists (String c l). split.
      * change (String c s = String c (l ++ Str.lstrip s)%string). now rewrite <- Hs.
      * simpl. now rewrite E, Hl.
    + now exists EmptyString.
Qed.

Lemma lstrip_first s c :
  first_char (Str.lstrip s) = Some c -> Str.is_space c = false.
Proof.
  induction s as [|d s IH]; simpl; [discriminate|].
  destruct (Str.is_space d) eqn:E; [exact IH|].
  simpl. now intros [= <-].
Qed.

Lemma rstrip_split s :
  exists r, s = (Str.rstrip s ++ r)%string /\ all_chars Str.is_space r = true.
Proof.
  induction s as [|c s (r & Hs & Hr)]; simpl.
  - now exists EmptyString.
  - destruct (Str.rstrip s) as [|d t] eqn:E.
    + change (s = r) in Hs. subst r. destruct (Str.is_space c) eqn:Ec.
      * exists (String c s). simpl. now rewrite Ec, Hr.
      * now exists s.
    + exists r. split; [|exact Hr].
      change (String c s = String c (String d t ++ r)%string). now rewrite <- Hs.
Qed.

Lemma rstrip_last s c :
  last_char (Str.rstrip s) = Some c -> Str.is_space c = false.
Proof.
  induction s as [|d s IH]; simpl; [discriminate|].
  destruct (Str.rstrip s) as [|e t] eqn:E.
  - destruct (Str.is_space d) eqn:Ed; simpl; [discriminate|].
    now intros [= <-].
  - change (last_char (String d (String e t))) with
      (match last_char (String e t) with Some x => Some x | None => Some d end).
    destruct (last_char (String e t)) as [x|] eqn:El;
      [|simpl in El; destruct (last_char t); discriminate].
    intros [= <-]. now apply IH.
Qed.

Lemma rstrip_first s c :
  first_char (Str.rstrip s) = Some c -> first_char s = Some c.
Proof.
  destruct s as [|d s]; simpl; [discriminate|].
  destruct (Str.rstrip s); [destruct (Str.is_space d)|]; simpl; congruence.
Qed.

(** [strip] takes white space off both ends, and nothing else. *)
Lemma strip_spec s :
  (exists l r, s = (l ++ Str.strip s ++ r)%string /\
               all_chars Str.is_space l = true /\
               all_chars Str.is_space r = true) /\
  (forall c, first_char (Str.strip s) = Some c -> Str.is_space c = false) /\
  (forall c, last_char (Str.strip s) = Some c -> Str.is_space c = false).
Proof.
  unfold Str.strip. split; [|split].
  - destruct (lstrip_split s) as (l & Hs & Hl).
    destruct (rstrip_split (Str.lstrip s)) as (r & Ht & Hr).
    exists l, r. now rewrite <- Ht.
  - intros c H. apply rstrip_first in H. now apply lstrip_first in H.
  - apply rstrip_last.
Qed.

Lemma text_cell_string kvs s :
  (Py.lookup "text" kvs = Some (PStr s) \/
   ((Py.lookup "text" kvs = None \/ Py.lookup "text" kvs = Some PNone) /\
    s = EmptyString)) ->
  text_cell (PDict kvs) = Ok (PStr (Str.strip (Str.replace newline " " s))).
Proof.
  unfold text_cell. simpl.
  intros [->|[[-> | ->] ->]]; try reflexivity.
  unfold Py.or_. simpl. now destruct s.
Qed.

Lemma reply_count_length kvs :
  reply_count (PDict kvs) =
  Ok (match Py.lookup "replies" kvs with
      | Some (PList xs) => Z.of_nat (length xs)
      | _ => 0
      end).
Proof.
  unfold reply_count. simpl.
  destruct (Py.lookup "replies" kvs) as [[]|]; reflexivity.
Qed.

(** C9. For every detailed record whose text is a string or is absent,
    the CSV row carries the text with every newline turned into a space
    and the white space at both ends removed (the empty string for an
    absent text), and [reply_count] is the length of the list under
    [replies], or 0 when there is no list there. *)
Theorem C9_csv_row (kvs : list (string * pyval)) (s : string) :
  (Py.lookup "text" kvs = Some (PStr s) \/
   ((Py.lookup "text" kvs = None \/ Py.lookup "text" kvs = Some PNone) /\
    s = EmptyString)) ->
  exists cell row,
    row = [field "id" kvs; field "username" kvs; PStr cell;
           field "like_count" kvs; field "created_at" kvs;
           PInt (match Py.lookup "replies" kvs with
                 | Some (PList xs) => Z.of_nat (length xs)
                 | _ => 0
                 end)] /\
    csv_row (PDict kvs) = Ok row /\
    (forall path us,
        write_output Detailed Csv path [PDict kvs] us false =
        Ok (CsvDoc [csv_header; row])) /\
    exists spaced l r,
      String.length spaced = String.length s /\
      (forall i, String.get i spaced = option_map unbreak (String.get i s)) /\
      spaced = (l ++ cell ++ r)%string /\
      all_chars Str.is_space l = true /\
      all_chars Str.is_space r = true /\
      (forall c, first_char cell = Some c -> Str.is_space c = false) /\
      (forall c, last_char cell = Some c -> Str.is_space c = false).
Proof.
  intros Htext.
  assert (Hrow : csv_row (PDict kvs) =
    Ok [field "id" kvs; field "username" kvs;
        PStr (Str.strip (Str.replace newline " " s));
        field "like_count" kvs; field "created_at" kvs;
        PInt (match Py.lookup "replies" kvs with
              | Some (PList xs) => Z.of_nat (length xs)
              | _ => 0
              end)]).
  { unfold csv_row. rewrite reply_count_length, (text_cell_string _ _ Htext).
    reflexivity. }
  eexists _, _. split; [reflexivity|]. split; [exact Hrow|]. split.
  - intros path us. unfold write_output. simpl for_each. now rewrite Hrow.
  - destruct (strip_spec (Str.replace newline " " s)) as ((l & r & Hs & Hl & Hr) & Hf & Hb).
    exists (Str.replace newline " " s), l, r.
    repeat split; auto using replace_newline_length, replace_newline_get.
Qed.

(** ** The pagination loop *)

Section FetchProperties.

Variables (shortcode : string) (headers : list (string * string)).
Variables (per_page : Z) (include_replies : bool).
Variables (max_comments : option Z) (min_likes : Z).

Local Abbreviation cap := (cap_reached max_comments).
Local Abbreviation edges_loop := (for_edges include_replies max_comments min_likes).
Local Abbreviation page := (read_page include_replies max_comments min_likes).
Local Abbreviation body :=
  (loop_body shortcode headers per_page include_replies max_comments min_likes).
Local Abbreviation loop :=
  (fetch_loop shortcode headers per_page include_replies max_comments min_likes).

Lemma edge_item_keep edge item keep :
  edge_item include_replies min_likes edge = Ok (item, keep) ->
  enough_likes min_likes item = Ok keep.
Proof.
  unfold edge_item.
  destruct (Py.get edge "node" (PDict [])) as [node|e]; [|discriminate]. simpl.
  destruct (parse_comment_node node include_replies) as [it|e]; [|discriminate]. simpl.
  destruct (enough_likes min_likes it) as [k|e] eqn:E; [|discriminate]. simpl.
  intros [= <- <-]. exact E.
Qed.

(** *** Invariants of the loop

    [P] holds of the results whenever another record may be added, [Q]
    whenever the loop may return them. *)
Section Invariant.

Variables P Q : list pyval -> Prop.
Hypothesis edges_PQ : forall es results hn res o,
  P results -> edges_loop es results hn = (res, o) -> Q res.
Hypothesis P_Q : forall l, P l -> Q l.
Hypothesis Q_P : forall l, Q l -> cap l = false -> P l.

Lemma read_page_inv data results hn res o :
  P results -> page data results hn = (res, o) -> Q res.
Proof.
  intros HP. unfold read_page.
  destruct (shortcode_media data) as [media|e]; [|intros [= <- _]; auto].
  destruct (negb (Py.truthy media)); [intros [= <- _]; auto|].
  destruct (page_edges media) as [[edge_info es]|e]; [|intros [= <- _]; auto].
  destruct (edges_loop es results hn) as [res' r] eqn:E.
  intros [= <- _]. eapply edges_PQ; eassumption.
Qed.

Lemma loop_body_inv st r rq o :
  P (results st) -> body st r = (rq, o) ->
  match o with
  | Ok (Next st') => Q (results st') /\ (has_next st' = true -> P (results st'))
  | Ok (Break res) => Q res
  | Raise _ => True
  end.
Proof.
  intros HP. unfold loop_body, graphql_request.
  intros [= _ <-].
  destruct r as [|code [data|]]; simpl; auto; destruct (negb (code =? 200));
    simpl; auto.
  destruct (page data (results st) (has_next st)) as [res o] eqn:E.
  pose proof (read_page_inv _ _ _ _ _ HP E) as HQ.
  destruct o as [[|edge_info hn]|[]]; auto.
  destruct (Py.get edge_info "page_info" (PDict [])) as [page_info|e]; simpl; auto.
  destruct (Py.get page_info "has_next_page" PNone) as [next_page|e]; simpl; auto.
  destruct (Py.get page_info "end_cursor" PNone) as [end_cursor|e]; simpl; auto.
  split; [exact HQ|]. intros H. apply andb_true_iff in H as [_ H].
  apply Q_P; [exact HQ|]. now apply negb_true_iff in H.
Qed.

Lemma fetch_loop_nil st :
  loop [] st = if has_next st then ([], AwaitingPage st)
               else ([], Returned (results st)).
Proof. reflexivity. Qed.

Lemma fetch_loop_cons rp script st :
  loop (rp :: script) st =
  if has_next st then
    let (rq, o) := body st rp in
    match o with
    | Raise e => ([rq], Failed e)
    | Ok (Break res) => ([rq], Returned res)
    | Ok (Next st') => let (log, res) := loop script st' in (rq :: log, res)
    end
  else ([], Returned (results st)).
Proof. reflexivity. Qed.

Lemma fetch_loop_inv script : forall st log r,
  (has_next st = true -> P (results st)) -> Q (results st) ->
  loop script st = (log, r) ->
  match r with
  | Returned res => Q res
  | AwaitingPage st' => P (results st') /\ has_next st' = true
  | Failed _ => True
  end.
Proof.
  induction script as [|rp script IH]; intros st log r HP HQ;
    [rewrite fetch_loop_nil|rewrite fetch_loop_cons];
    destruct (has_next st) eqn:Hn; try (intros [= _ <-]; auto).
  destruct (body st rp) as [rq o] eqn:E.
  pose proof (loop_body_inv _ _ _ _ (HP eq_refl) E) as Hb.
  destruct o as [[st'|res]|e]; try (intros [= _ <-]; auto).
  destruct (loop script st') as [log' r'] eqn:E'.
  intros [= _ <-]. simpl in Hb. destruct Hb as [HQ' HP'].
  eapply IH; eassumption.
Qed.

End Invariant.

(** Every record in the results met the threshold when it was added. *)
Lemma for_edges_enough es : forall results hn res o,
  Forall (fun it => enough_likes min_likes it = Ok true) results ->
  edges_loop es results hn = (res, o) ->
  Forall (fun it => enough_likes min_likes it = Ok true) res.
Proof.
  induction es as [|edge es IH]; intros results hn res o HF; simpl.
  - now intros [= <- _].
  - destruct (edge_item include_replies min_likes edge) as [[item keep]|e] eqn:E;
      [|now intros [= <- _]].
    apply edge_item_keep in E.
    assert (HF' : Forall (fun it => enough_likes min_likes it = Ok true)
                    (if keep then results ++ [item] else results)).
    { destruct keep; [|exact HF]. apply Forall_app. split; [exact HF|].
      now repeat constructor. }
    destruct (cap (if keep then results ++ [item] else results)).
    + now intros [= <- _].
    + now apply IH.
Qed.

(** *** Where [KeyError] comes from

    In the [try] block only [media["edge_media_to_parent_comment"]] can
    raise [KeyError]: the other reads go through [get]. *)

Lemma bind_no_key_error {A B : Type} (o : outcome A) (k : A -> outcome B) :
  o <> Raise KeyError ->
  (forall a, k a <> Raise KeyError) ->
  bind o k <> Raise KeyError.
Proof. destruct o as [a|e]; simpl; auto. congruence. Qed.

Lemma get_no_key_error v k d : Py.get v k d <> Raise KeyError.
Proof. destruct v; discriminate. Qed.

Lemma iter_no_key_error v : Py.iter v <> Raise KeyError.
Proof. destruct v; discriminate. Qed.

Lemma parse_replies_no_key_error es : forall replies,
  parse_replies es replies <> Raise KeyError.
Proof.
  induction es as [|e es IH]; intros replies; simpl; [discriminate|].
  repeat (apply bind_no_key_error; [apply get_no_key_error|intros ?]).
  apply IH.
Qed.

Lemma parse_comment_node_no_key_error node :
  parse_comment_node node include_replies <> Raise KeyError.
Proof.
  unfold parse_comment_node.
  repeat (apply bind_no_key_error; [apply get_no_key_error|intros ?]).
  destruct include_replies; [|discriminate].
  repeat (apply bind_no_key_error; [apply get_no_key_error|intros ?]).
  apply bind_no_key_error; [apply iter_no_key_error|intros ?].
  apply bind_no_key_error; [apply parse_replies_no_key_error|discriminate].
Qed.

Lemma edge_item_no_key_error edge :
  edge_item include_replies min_likes edge <> Raise KeyError.
Proof.
  unfold edge_item, enough_likes.
  apply bind_no_key_error; [apply get_no_key_error|intros node].
  apply bind_no_key_error; [apply parse_comment_node_no_key_error|intros item].
  apply bind_no_key_error; [|discriminate].
  apply bind_no_key_error; [apply get_no_key_error|intros lk].
  unfold Py.ge. destruct (Py.as_int _); discriminate.
Qed.

Lemma for_edges_no_key_error es : forall results hn res,
  edges_loop es results hn <> (res, Raise KeyError).
Proof.
  induction es as [|edge es IH]; intros results hn res; simpl; [discriminate|].
  pose proof (edge_item_no_key_error edge) as He.
  destruct (edge_item include_replies min_likes edge) as [[item keep]|e].
  - destruct (cap _); [discriminate|apply IH].
  - congruence.
Qed.

(** A [KeyError] in the [try] block is the missing comments container,
    and nothing has been added to the results when it is raised. *)
Lemma read_page_key_error data results hn res :
  page data results hn = (res, Raise KeyError) ->
  page_fault data /\ res = results.
Proof.
  unfold read_page.
  destruct (shortcode_media data) as [media|e] eqn:Em.
  - destruct (Py.truthy media) eqn:Et; simpl; [|discriminate].
    destruct (page_edges media) as [[edge_info es]|e] eqn:Ee.
    + destruct (edges_loop es results hn) as [res' [b|e]] eqn:El;
        simpl; [discriminate|].
      intros [= -> ->]. now apply for_edges_no_key_error in El.
    + intros [= <- ->]. split; [|reflexivity].
      apply (comments_missing _ media Em Et).
      unfold page_edges in Ee.
      destruct (Py.getitem media "edge_media_to_parent_comment") as [ei|e];
        [|simpl in Ee; congruence].
      exfalso. revert Ee. simpl.
      apply bind_no_key_error; [apply get_no_key_error|intros edges].
      apply bind_no_key_error; [apply iter_no_key_error|discriminate].
  - intros [= <- ->]. exfalso. revert Em. unfold shortcode_media.
    apply bind_no_key_error; [apply get_no_key_error|intros d].
    apply get_no_key_error.
Qed.

(** A run that waits for a page goes on from there when the script has
    more replies. *)
Lemma fetch_loop_app pre : forall st log st' more,
  loop pre st = (log, AwaitingPage st') ->
  loop (pre ++ more) st =
  let (log', r) := loop more st' in (log ++ log', r).
Proof.
  induction pre as [|rp pre IH]; intros st log st' more.
  - rewrite fetch_loop_nil. destruct (has_next st); [|discriminate].
    intros [= <- <-]. simpl app. now destruct (loop more st).
  - rewrite <- app_comm_cons, !fetch_loop_cons.
    destruct (has_next st); [|discriminate].
    destruct (body st rp) as [rq [[st1|res]|e]]; try discriminate.
    destruct (loop pre st1) as [log1 r1] eqn:E. intros [= <- ->].
    rewrite (IH _ _ _ more E). now destruct (loop more st').
Qed.

Lemma fetch_loop_awaiting script st log st' :
  loop script st = (log, AwaitingPage st') -> has_next st' = true.
Proof.
  intros H.
  apply (fetch_loop_inv (fun _ => True) (fun _ => True)) in H; auto.
  now destruct H.
Qed.

(** The reply on which the loop stops with what it has. *)
Lemma loop_body_fault st data :
  page_fault data ->
  exists rq, body st (Reply 200 (Some data)) = (rq, Ok (Break (results st))).
Proof.
  intros Hf. unfold loop_body, graphql_request. simpl. eexists. f_equal.
  unfold read_page. destruct Hf as [media -> Hm|media -> Hm Hk].
  - now rewrite Hm.
  - rewrite Hm. unfold page_edges. now rewrite Hk.
Qed.

(** *** With a positive maximum *)
Section Cap.

Variable m : Z.
Hypothesis m_pos : 0 < m.
Hypothesis max_is_m : max_comments = Some m.

Lemma cap_reached_pos l : cap l = (m <=? Z.of_nat (length l)).
Proof.
  unfold cap_reached. rewrite max_is_m.
  destruct (Z.eqb_spec m 0) as [->|_]; [lia|reflexivity].
Qed.

Lemma length_keep (results : list pyval) item (keep : bool) :
  Z.of_nat (length results) < m ->
  Z.of_nat (length (if keep then results ++ [item] else results)) <= m.
Proof.
  destruct keep; [|lia]. rewrite length_app. simpl. lia.
Qed.

Lemma for_edges_bound es : forall results hn res o,
  Z.of_nat (length results) < m ->
  edges_loop es results hn = (res, o) ->
  Z.of_nat (length res) <= m.
Proof.
  induction es as [|edge es IH]; intros results hn res o Hlen; simpl.
  - intros [= <- _]. lia.
  - destruct (edge_item include_replies min_likes edge) as [[item keep]|e];
      [|intros [= <- _]; lia].
    pose proof (length_keep results item keep Hlen) as Hk.
    rewrite cap_reached_pos.
    destruct (Z.leb_spec m (Z.of_nat (length (if keep then results ++ [item] else results)))).
    + now intros [= <- _].
    + now apply IH.
Qed.

(** When the cap stops the loop over the edges, the results are exactly
    [m], and the edges after the one that reached the cap play no part. *)
Lemma for_edges_cap_break es : forall results res,
  Z.of_nat (length results) < m ->
  edges_loop es results true = (res, Ok false) ->
  Z.of_nat (length res) = m /\
  forall rest, edges_loop (es ++ rest) results true = (res, Ok false).
Proof.
  induction es as [|edge es IH]; intros results res Hlen; simpl.
  - discriminate.
  - destruct (edge_item include_replies min_likes edge) as [[item keep]|e];
      [|discriminate].
    pose proof (length_keep results item keep Hlen) as Hk.
    rewrite cap_reached_pos.
    destruct (Z.leb_spec m (Z.of_nat (length (if keep then results ++ [item] else results)))).
    + intros [= <-]. split; [lia|reflexivity].
    + now apply IH.
Qed.

(** The loop over the edges adds the first kept records, up to the cap. *)
Lemma for_edges_kept es : forall results hn res hn',
  Z.of_nat (length results) < m ->
  edges_loop es results hn = (res, Ok hn') ->
  res = results ++ firstn (Z.to_nat m - length results)
                     (kept include_replies min_likes es).
Proof.
  induction es as [|edge es IH]; intros results hn res hn' Hlen; simpl.
  - intros [= <- _]. now rewrite firstn_nil, app_nil_r.
  - destruct (edge_item include_replies min_likes edge) as [[item keep]|e];
      [|discriminate].
    rewrite cap_reached_pos.
    destruct keep.
    + assert (Hl : length (results ++ [item]) = S (length results))
        by (rewrite length_app; simpl; lia).
      replace (Z.to_nat m - length results)%nat
        with (S (Z.to_nat m - length (results ++ [item])))%nat by lia.
      simpl firstn.
      destruct (Z.leb_spec m (Z.of_nat (length (results ++ [item])))).
      * intros [= <- _].
        replace (Z.to_nat m - length (results ++ [item]))%nat with 0%nat by lia.
        reflexivity.
      * intros H'. apply IH in H'; [|lia]. rewrite H'.
        now rewrite <- app_assoc.
    + destruct (Z.leb_spec m (Z.of_nat (length results))); [lia|].
      now apply IH.
Qed.

Lemma fetch_loop_bound script st log r :
  (has_next st = true -> Z.of_nat (length (results st)) < m) ->
  Z.of_nat (length (results st)) <= m ->
  loop script st = (log, r) ->
  match r with
  | Returned res => Z.of_nat (length res) <= m
  | AwaitingPage st' => Z.of_nat (length (results st')) < m /\ has_next st' = true
  | Failed _ => True
  end.
Proof.
  apply (fetch_loop_inv (fun l => Z.of_nat (length l) < m)
                        (fun l => Z.of_nat (length l) <= m)).
  - intros es results hn res o. apply for_edges_bound.
  - intros l. lia.
  - intros l _. rewrite cap_reached_pos. intros H. apply Z.leb_gt in H. exact H.
Qed.

(** The reply whose page reaches the cap: the loop returns at once. *)
Lemma fetch_loop_cap_break st data media edge_info seen rest page_info res post :
  has_next st = true ->
  Z.of_nat (length (results st)) < m ->
  shortcode_media data = Ok media ->
  Py.truthy media = true ->
  page_edges media = Ok (edge_info, seen ++ rest) ->
  Py.get edge_info "page_info" (PDict []) = Ok (PDict page_info) ->
  edges_loop seen (results st) true = (res, Ok false) ->
  Z.of_nat (length res) = m /\
  exists rq, loop (Reply 200 (Some data) :: post) st = ([rq], Returned res).
Proof.
  intros Hn Hlen Hmedia Htruthy Hedges Hinfo Hseen.
  destruct (for_edges_cap_break _ _ _ Hlen Hseen) as [Hm Hrest].
  split; [exact Hm|].
  rewrite fetch_loop_cons, Hn.
  unfold loop_body, graphql_request. simpl negb.
  cbv beta iota delta [bind].
  unfold read_page. rewrite Hmedia, Htruthy. simpl negb. cbv iota.
  rewrite Hedges, Hn, Hrest. cbv beta iota delta [bind]. rewrite Hinfo.
  cbv beta iota delta [bind Py.get].
  rewrite cap_reached_pos.
  destruct (Z.leb_spec m (Z.of_nat (length res))); [|lia].
  rewrite andb_false_r.
  destruct post; simpl; eauto.
Qed.

End Cap.


End FetchProperties.

(** ** The claims about the pagination loop *)

(** The maximum 0 is no maximum: the guard of the cap is false for it as
    it is for [None]. *)
Lemma zero_maximum_is_none (shortcode : string) (headers : list (string * string))
    (per_page : Z) (include_replies : bool) (min_likes : Z) (script : list reply) :
  fetch_parent_comments shortcode headers per_page include_replies (Some 0)
    min_likes script =
  fetch_parent_comments shortcode headers per_page include_replies None
    min_likes script.
Proof. reflexivity. Qed.

(** C1, as amended.  For every positive maximum, the sequence that
    [fetch_parent_comments] returns is no longer than the maximum, every
    record in it met the minimum of likes, and the loop over the edges of
    a page adds the first records that meet it up to the maximum: the
    cap counts the records kept, not the nodes read. *)
Theorem C1_positive_cap_counts_kept (shortcode : string)
    (headers : list (string * string)) (per_page : Z) (include_replies : bool)
    (m min_likes : Z) :
  0 < m ->
  (forall script log res,
      fetch_parent_comments shortcode headers per_page include_replies
        (Some m) min_likes script = (log, Returned res) ->
      Z.of_nat (length res) <= m /\
      Forall (fun it => enough_likes min_likes it = Ok true) res) /\
  (forall es results hn res hn',
      Z.of_nat (length results) < m ->
      for_edges include_replies (Some m) min_likes es results hn = (res, Ok hn') ->
      res = results ++ firstn (Z.to_nat m - length results)
                         (kept include_replies min_likes es)).
Proof.
  intros Hm. split.
  - intros script log res H. split.
    + apply (fetch_loop_bound _ _ _ _ _ _ m Hm eq_refl) in H; simpl; auto; lia.
    + apply (fetch_loop_inv _ _ _ _ _ _
               (Forall (fun it => enough_likes min_likes it = Ok true))
               (Forall (fun it => enough_likes min_likes it = Ok true))) in H;
        simpl; auto.
      intros es results hn res' o. apply for_edges_enough.
  - intros es results hn res hn'. now apply for_edges_kept.
Qed.

(** C2. A record is in the result of [fetch_parent_comments] only if its
    like count, taken as zero when it is absent or unknown, is at least
    the minimum; so a record without a like count is in no result
    obtained with a positive minimum. *)
Theorem C2_min_likes_filter (shortcode : string)
    (headers : list (string * string)) (per_page : Z) (include_replies : bool)
    (max_comments : option Z) (min_likes : Z)
    (script : list reply) (log : list request) (res : list pyval) (item : pyval) :
  fetch_parent_comments shortcode headers per_page include_replies
    max_comments min_likes script = (log, Returned res) ->
  In item res ->
  (exists n, likes_or_zero item = Some n /\ min_likes <= n) /\
  (Py.get item "like_count" PNone = Ok PNone -> min_likes <= 0).
Proof.
  intros H Hin.
  apply (fetch_loop_inv _ _ _ _ _ _
           (Forall (fun it => enough_likes min_likes it = Ok true))
           (Forall (fun it => enough_likes min_likes it = Ok true))) in H;
    simpl; auto; [|intros es results hn res' o; apply for_edges_enough].
  rewrite List.Forall_forall in H. specialize (H item Hin).
  unfold enough_likes, Py.ge in H. unfold likes_or_zero.
  destruct (Py.get item "like_count" PNone) as [lk|e]; [|discriminate].
  simpl in H.
  destruct (Py.as_int (Py.or_ lk (PInt 0))) as [n|] eqn:E; [|discriminate].
  injection H as H. apply Z.leb_le in H. split; [eauto|].
  intros [= ->]. simpl in E. injection E as <-. exact H.
Qed.

(** C3, as amended. When the reply to a request is one in which
    [shortcode_media] is looked up and found absent or false, or one
    whose reading raises [KeyError] ([shortcode_media] is an object
    without the comments container), the loop ends there and returns
    the records collected on the pages before, with no exception; on
    the first request the result is the empty sequence. *)
Theorem C3_fault_returns_collected (shortcode : string)
    (headers : list (string * string)) (per_page : Z) (include_replies : bool)
    (max_comments : option Z) (min_likes : Z)
    (pre : list reply) (log : list request) (st : loop_state)
    (data : pyval) (post : list reply) :
  fetch_parent_comments shortcode headers per_page include_replies
    max_comments min_likes pre = (log, AwaitingPage st) ->
  (page_fault data \/
   exists results hn res,
     read_page include_replies max_comments min_likes data results hn =
     (res, Raise KeyError)) ->
  (exists rq,
      fetch_parent_comments shortcode headers per_page include_replies
        max_comments min_likes (pre ++ Reply 200 (Some data) :: post) =
      (log ++ [rq], Returned (results st))) /\
  (exists rq,
      fetch_parent_comments shortcode headers per_page include_replies
        max_comments min_likes (Reply 200 (Some data) :: post) =
      ([rq], Returned [])).
Proof.
  intros Hpre Hstop.
  assert (Hf : page_fault data).
  { destruct Hstop as [Hf|(results & hn & res & Hk)]; [exact Hf|].
    now apply read_page_key_error in Hk. }
  unfold fetch_parent_comments in *. split.
  - rewrite (fetch_loop_app _ _ _ _ _ _ _ _ _ _ _ Hpre).
    rewrite fetch_loop_cons, (fetch_loop_awaiting _ _ _ _ _ _ _ _ _ _ Hpre).
    destruct (loop_body_fault shortcode headers per_page include_replies
                max_comments min_likes st data Hf) as [rq ->].
    now exists rq.
  - rewrite fetch_loop_cons. simpl has_next. cbv iota.
    destruct (loop_body_fault shortcode headers per_page include_replies
                max_comments min_likes
                {| results := []; has_next := true; cursor := PNone |} data Hf)
      as [rq ->].
    now exists rq.
Qed.

(** C4. When the maximum is reached part-way through a page (it was
    not when the page came, and the record of one of its nodes brings the
    count up to it), the loop stops at once: the nodes of the page after
    that one are not read, exactly the maximum number of records is
    returned, and the request that brought the page is the last one
    sent, whatever the service would have answered next. *)
Theorem C4_cap_reached_mid_page (shortcode : string)
    (headers : list (string * string)) (per_page : Z) (include_replies : bool)
    (m min_likes : Z)
    (pre : list reply) (log : list request) (st : loop_state)
    (data media edge_info : pyval) (seen rest : list pyval)
    (page_info : list (string * pyval)) (res : list pyval) (post : list reply) :
  fetch_parent_comments shortcode headers per_page include_replies
    (Some m) min_likes pre = (log, AwaitingPage st) ->
  Z.of_nat (length (results st)) < m ->
  shortcode_media data = Ok media ->
  Py.truthy media = true ->
  page_edges media = Ok (edge_info, seen ++ rest) ->
  Py.get edge_info "page_info" (PDict []) = Ok (PDict page_info) ->
  for_edges include_replies (Some m) min_likes seen (results st) true =
    (res, Ok false) ->
  Z.of_nat (length res) = m /\
  res = results st ++ firstn (Z.to_nat m - length (results st))
                        (kept include_replies min_likes seen) /\
  exists rq,
    fetch_parent_comments shortcode headers per_page include_replies
      (Some m) min_likes (pre ++ Reply 200 (Some data) :: post) =
    (log ++ [rq], Returned res).
Proof.
  intros Hpre Hlen Hmedia Htruthy Hedges Hinfo Hseen.
  assert (Hm : 0 < m) by lia.
  unfold fetch_parent_comments in *.
  pose proof (fetch_loop_awaiting _ _ _ _ _ _ _ _ _ _ Hpre) as Hn.
  destruct (fetch_loop_cap_break shortcode headers per_page include_replies
              (Some m) min_likes m Hm eq_refl st data media edge_info seen rest
              page_info res post Hn Hlen Hmedia Htruthy Hedges Hinfo Hseen)
    as [Hres [rq Hrun]].
  split; [exact Hres|]. split.
  - eapply for_edges_kept; eauto.
  - exists rq. rewrite (fetch_loop_app _ _ _ _ _ _ _ _ _ _ _ Hpre).
    now rewrite Hrun.
Qed.

(** ** Exit statuses *)

Lemma fetch_bad_reply (shortcode : string) (headers : list (string * string))
    (per_page : Z) (include_replies : bool) (max_comments : option Z)
    (min_likes : Z) pre log st bad post :
  fetch_parent_comments shortcode headers per_page include_replies
    max_comments min_likes pre = (log, AwaitingPage st) ->
  bad_reply bad ->
  exists rq,
    fetch_parent_comments shortcode headers per_page include_replies
      max_comments min_likes (pre ++ bad :: post) =
    (log ++ [rq], Failed (SystemExit 1)).
Proof.
  unfold fetch_parent_comments. intros Hpre Hbad.
  rewrite (fetch_loop_app _ _ _ _ _ _ _ _ _ _ _ Hpre).
  rewrite fetch_loop_cons, (fetch_loop_awaiting _ _ _ _ _ _ _ _ _ _ Hpre).
  unfold loop_body, graphql_request.
  destruct Hbad as [code json Hcode|].
  - destruct (Z.eqb_spec code 200) as [|_]; [contradiction|]. simpl. eauto.
  - simpl. eauto.
Qed.

Lemma validate_env_incomplete w :
  env_incomplete w = true -> validate_env w = sys_exit 2.
Proof.
  unfold env_incomplete, validate_env. simpl.
  destruct (unset (SESSIONID w)), (unset (DS_USER_ID w)),
    (unset (CSRFTOKEN w)), (unset (MID w)); simpl; intros H;
    try reflexivity; discriminate.
Qed.

(** C5, as amended.  A fatal condition ends the run with status 2 when
    the input or the configuration is invalid (no post in the URL, a
    variable of the environment missing), and with status 1 both when a
    request fails (a status other than 200, a body that is not JSON) and
    when the output cannot be written. *)
Theorem C5_exit_statuses (a : Args.t) (w : world) :
  (forall url,
      read_url a w = Ok url -> extract_media url = None ->
      status (snd (main a w)) = Some 2) /\
  (forall url media,
      read_url a w = Ok url -> extract_media url = Some media ->
      env_incomplete w = true ->
      status (snd (main a w)) = Some 2) /\
  (forall shortcode headers pre log st bad post,
      prepare a w = Ok (shortcode, headers) ->
      service w = pre ++ bad :: post ->
      fetch_parent_comments shortcode headers (Z.max 1 (Args.per_page a))
        (Args.include_replies a) (Args.max_comments a)
        (Z.max 0 (Args.min_likes a)) pre = (log, AwaitingPage st) ->
      bad_reply bad ->
      status (snd (main a w)) = Some 1) /\
  (forall shortcode headers log comments records payload,
      prepare a w = Ok (shortcode, headers) ->
      fetch_parent_comments shortcode headers (Z.max 1 (Args.per_page a))
        (Args.include_replies a) (Args.max_comments a)
        (Z.max 0 (Args.min_likes a)) (service w) = (log, Returned comments) ->
      detailed_records a comments = Ok records ->
      usernames_payload a records = Ok payload ->
      disk_fails w = true ->
      status (snd (main a w)) = Some 1).
Proof.
  unfold main. repeat split.
  - intros url Hu Hm. unfold prepare. now rewrite Hu; simpl; rewrite Hm.
  - intros url [kind code] Hu Hm He. unfold prepare. rewrite Hu. simpl.
    rewrite Hm, (validate_env_incomplete _ He). reflexivity.
  - intros shortcode headers pre log st bad post -> -> Hpre Hbad.
    destruct (fetch_bad_reply _ _ _ _ _ _ _ _ _ _ post Hpre Hbad) as [rq ->].
    reflexivity.
  - intros shortcode headers log comments records payload -> -> Hr Hp Hd.
    simpl. rewrite Hr. simpl. rewrite Hp. simpl.
    unfold save, write_output. rewrite Hd. reflexivity.
Qed.

(** The claim C5 as first stated fails: a failed request and a failed
    write end the run with the same status. *)
Lemma C5_same_status_counterexample :
  status (snd (main Sample.args (Sample.world_with [Reply 500 None] false))) = Some 1 /\
  status (snd (main Sample.args
                 (Sample.world_with [Reply 200 (Some Sample.last_page)] true))) = Some 1.
Proof. split; vm_compute; reflexivity. Qed.

(** ** The statements at work on the samples *)

(** C3 as it was stated fails where the container is missing behind a
    [null]: after a first page of three records, a reply whose [data] is
    [null], or whose comments container is [null], ends the run with
    [AttributeError], raised past the loop, and the three records are
    lost; on the first request the run ends with it as well, not with
    the empty sequence. *)
Lemma C3_null_container_counterexample :
  (exists log st,
      fetch_parent_comments "XY" [] 50 false None 0
        [Reply 200 (Some Sample.first_page)] = (log, AwaitingPage st) /\
      length (results st) = 3%nat) /\
  snd (fetch_parent_comments "XY" [] 50 false None 0
         [Reply 200 (Some Sample.first_page);
          Reply 200 (Some (PDict [("data", PNone)]))]) =
  Failed AttributeError /\
  snd (fetch_parent_comments "XY" [] 50 false None 0
         [Reply 200 (Some Sample.first_page);
          Reply 200
            (Some (PDict [("data",
                           PDict [("shortcode_media",
                                   PDict [("edge_media_to_parent_comment",
                                           PNone)])])]))]) =
  Failed AttributeError /\
  snd (fetch_parent_comments "XY" [] 50 false None 0
         [Reply 200 (Some (PDict [("data", PNone)]))]) =
  Failed AttributeError.
Proof.
  split; [|repeat split]; [|vm_compute; reflexivity..].
  do 2 eexists. split; vm_compute; reflexivity.
Qed.

(** The claim C1 as first stated fails for the maximum 0, which the
    loop takes for no maximum at all (two records come back), and for a
    negative maximum, under which the first record is still added. *)
Lemma C1_zero_maximum_counterexample :
  (exists log res,
      fetch_parent_comments "XY" [] 50 false (Some 0) 0
        [Reply 200 (Some Sample.last_page)] = (log, Returned res) /\
      length res = 2%nat /\
      ~ (Z.of_nat (length res) <= 0)) /\
  (exists log res,
      fetch_parent_comments "XY" [] 50 false (Some (-1)) 0
        [Reply 200 (Some Sample.last_page)] = (log, Returned res) /\
      length res = 1%nat /\
      ~ (Z.of_nat (length res) <= -1)).
Proof.
  split; eexists _, _; (split; [vm_compute; reflexivity|]);
    (split; [reflexivity|]); vm_compute; intros H; apply H; reflexivity.
Qed.

Lemma C1_witness :
  exists log res,
    fetch_parent_comments "XY" [] 50 false (Some 5) 4
      [Reply 200 (Some Sample.page_of_eight)] = (log, Returned res) /\
    Z.of_nat (length res) <= 5 /\
    Forall (fun it => enough_likes 4 it = Ok true) res.
Proof.
  eexists _, _. split; [vm_compute; reflexivity|].
  eapply (proj1 (C1_positive_cap_counts_kept "XY" [] 50 false 5 4 eq_refl)
            [Reply 200 (Some Sample.page_of_eight)]).
  vm_compute; reflexivity.
Defined.

Lemma C2_witness :
  (exists n, likes_or_zero (Sample.record (PStr "3") "carl" "third" (PInt 7)) = Some n /\
             5 <= n) /\
  (Py.get (Sample.record (PStr "3") "carl" "third" (PInt 7)) "like_count" PNone =
   Ok PNone -> 5 <= 0).
Proof.
  eapply (C2_min_likes_filter "XY" [] 50 false None 5
            [Reply 200 (Some Sample.first_page); Reply 200 (Some Sample.last_page)]).
  - vm_compute; reflexivity.
  - simpl. left. reflexivity.
Defined.

Lemma C3_witness :
  exists log st,
    fetch_parent_comments "XY" [] 50 false None 0
      [Reply 200 (Some Sample.first_page)] = (log, AwaitingPage st) /\
    length (results st) = 3%nat /\
    (exists rq,
        fetch_parent_comments "XY" [] 50 false None 0
          ([Reply 200 (Some Sample.first_page)] ++
           Reply 200 (Some Sample.no_comments) :: [Reply 200 (Some Sample.last_page)]) =
        (log ++ [rq], Returned (results st))) /\
    (exists rq,
        fetch_parent_comments "XY" [] 50 false None 0
          (Reply 200 (Some Sample.no_comments) :: [Reply 200 (Some Sample.last_page)]) =
        ([rq], Returned [])).
Proof.
  eexists _, _. split; [vm_compute; reflexivity|]. split; [reflexivity|].
  apply C3_fault_returns_collected.
  - vm_compute; reflexivity.
  - left. eapply comments_missing; vm_compute; reflexivity.
Defined.

Lemma C4_witness :
  exists res,
    Z.of_nat (length res) = 5 /\
    res = [] ++ firstn (Z.to_nat 5 - 0)
                  (kept false 4
                     (map (fun id => Sample.comment id "dora" "hello" (PInt 4))
                        ["1"; "2"; "3"; "4"; "5"])) /\
    exists rq,
      fetch_parent_comments "XY" [] 50 false (Some 5) 4
        ([] ++ Reply 200 (Some Sample.page_of_eight) :: [Reply 500 None]) =
      ([] ++ [rq], Returned res).
Proof.
  eexists.
  eapply (C4_cap_reached_mid_page "XY" [] 50 false 5 4 [] []
            {| results := []; has_next := true; cursor := PNone |}
            Sample.page_of_eight _ _
            (map (fun id => Sample.comment id "dora" "hello" (PInt 4))
               ["1"; "2"; "3"; "4"; "5"])
            (map (fun id => Sample.comment id "dora" "hello" (PInt 4))
               ["6"; "7"; "8"])).
  - reflexivity.
  - simpl. lia.
  - vm_compute; reflexivity.
  - reflexivity.
  - vm_compute; reflexivity.
  - vm_compute; reflexivity.
  - vm_compute; reflexivity.
Defined.

Lemma C5_witness :
  status (snd (main Sample.args
                 (Sample.world_with [Reply 200 (Some Sample.first_page); Reply 200 None]
                    false))) = Some 1.
Proof.
  eapply (proj1 (proj2 (proj2 (C5_exit_statuses Sample.args
            (Sample.world_with [Reply 200 (Some Sample.first_page); Reply 200 None]
               false))))
            _ _ [Reply 200 (Some Sample.first_page)] _ _ (Reply 200 None) []).
  - vm_compute; reflexivity.
  - reflexivity.
  - vm_compute; reflexivity.
  - apply bad_body.
Defined.


Lemma C8_witness :
  exists log s names,
    main Sample.args
      (Sample.world_with
         [Reply 200 (Some Sample.first_page); Reply 200 (Some Sample.last_page)]
         false) = (log, Returned s) /\
    saved_doc s = usernames_doc Json names /\
    StronglySorted ci_le names.
Proof.
  destruct (main Sample.args
              (Sample.world_with
                 [Reply 200 (Some Sample.first_page); Reply 200 (Some Sample.last_page)]
                 false)) as [log [s|e|st]] eqn:E;
    [|vm_compute in E; discriminate..].
  destruct (proj1 (C8_usernames_written_sorted Sample.args eq_refl) _ log s E)
    as (names & Hdoc & Hsorted).
  exists log, s, names. auto.
Defined.

Lemma C9_witness :
  exists row,
    csv_row (Sample.record (PStr "7") "erin"
               (String newline "hello" ++ String newline "world  ")%string PNone) = Ok row.
Proof.
  destruct (C9_csv_row
              [("id", PStr "7"); ("username", PStr "erin");
               ("text", PStr (String newline "hello" ++ String newline "world  ")%string);
               ("like_count", PNone); ("created_at", PInt 1700000000)]
              (String newline "hello" ++ String newline "world  ")%string
              (or_introl eq_refl)) as (cell & row & _ & Hrow & _).
  exists row. exact Hrow.
Defined.


(** ** Scenarios *)

(** Three pages, the last without a next page: every comment that
    qualifies, in the order of arrival, after three requests. *)
Example three_pages :
  let second_page :=
    Sample.page_with [Sample.comment "9" "gil" "fifth" (PInt 2)] true (PStr "c2") in
  exists log,
    fetch_parent_comments "XY" [] 2 false None 3
      [Reply 200 (Some Sample.first_page); Reply 200 (Some second_page);
       Reply 200 (Some Sample.last_page)] =
    (log, Returned [Sample.record (PStr "1") "Bob" "first" (PInt 3);
                    Sample.record (PStr "3") "carl" "third" (PInt 7);
                    Sample.record (PStr "4") "bob" "fourth" (PInt 3);
                    Sample.record (PStr "1") "Bob" "first" (PInt 3)]) /\
    length log = 3%nat.
Proof. eexists. split; vm_compute; reflexivity. Qed.

(** No comments container in the first reply: the empty sequence, after
    one request, and nothing raised. *)
Example missing_container_first_request :
  exists rq,
    fetch_parent_comments "XY" [] 50 false None 0
      [Reply 200 (Some Sample.no_media); Reply 200 (Some Sample.first_page)] =
    ([rq], Returned []).
Proof. eexists. vm_compute. reflexivity. Qed.

(** A reply whose [data] is [null] is not handled: [get] is called on
    [None]. *)
Example null_data_raises :
  snd (fetch_parent_comments "XY" [] 50 false None 0
         [Reply 200 (Some (PDict [("data", PNone)]))]) =
  Failed AttributeError.
Proof. vm_compute. reflexivity. Qed.

(** Of two records with the id 1 the first stays; [True] and [1] are
    the same key; the record without an id goes. *)
Example dedupe_sample :
  dedupe_by_key
    [Sample.record (PStr "1") "Bob" "first" (PInt 3);
     Sample.record (PInt 1) "carl" "third" (PInt 7);
     Sample.record PNone "dora" "hello" (PInt 4);
     Sample.record (PStr "1") "Bob" "again" (PInt 9);
     Sample.record (PBool true) "erin" "fifth" (PInt 1)] "id" =
  Ok [Sample.record (PStr "1") "Bob" "first" (PInt 3);
      Sample.record (PInt 1) "carl" "third" (PInt 7)].
Proof. vm_compute. reflexivity. Qed.

(** A list as id cannot be hashed. *)
Example dedupe_unhashable :
  dedupe_by_key [Sample.record (PList []) "Bob" "first" (PInt 3)] "id" =
  Raise TypeError.
Proof. reflexivity. Qed.

(** The text [hello], a newline, [world] gives the cell [hello world]. *)
Example csv_hello_world :
  text_cell (Sample.record (PStr "7") "erin"
               ("hello" ++ String newline "world")%string PNone) =
  Ok (PStr "hello world").
Proof. vm_compute. reflexivity. Qed.

(** A negative maximum stops the loop after the first node. *)
Example negative_maximum :
  exists log res,
    fetch_parent_comments "XY" [] 50 false (Some (-1)) 0
      [Reply 200 (Some Sample.first_page)] = (log, Returned res) /\
    length res = 1%nat.
Proof. eexists _, _. split; vm_compute; reflexivity. Qed.

(** * Further properties *)

(** ** The URL of the post *)

Lemma str_app_cons c s t : (String c s ++ t)%string = String c (s ++ t)%string.
Proof. reflexivity. Qed.

Lemma str_app_assoc s t u : ((s ++ t) ++ u)%string = (s ++ (t ++ u))%string.
Proof.
  induction s as [|c s IH]; [reflexivity|].
  rewrite !str_app_cons. now rewrite IH.
Qed.

Lemma drop_prefix_inv p : forall s r,
  Str.drop_prefix p s = Some r -> s = (p ++ r)%string.
Proof.
  induction p as [|a p IH]; intros s r; simpl.
  - now intros [= ->].
  - destruct s as [|b s]; [discriminate|].
    destruct (Ascii.eqb_spec a b) as [->|_]; [|discriminate].
    intros H. rewrite str_app_cons. f_equal. now apply IH.
Qed.

Lemma drop_prefix_app p s : Str.drop_prefix p (p ++ s) = Some s.
Proof.
  induction p as [|a p IH]; [reflexivity|].
  rewrite str_app_cons. simpl. now rewrite Ascii.eqb_refl.
Qed.

Lemma take_while_inv f s :
  exists post,
    s = (Str.take_while f s ++ post)%string /\
    all_chars f (Str.take_while f s) = true /\
    forall c, first_char post = Some c -> f c = false.
Proof.
  induction s as [|a s (post & Hs & Hall & Hpost)]; simpl.
  - exists EmptyString. repeat split. discriminate.
  - destruct (f a) eqn:E.
    + exists post. rewrite str_app_cons. simpl. rewrite E, Hall.
      repeat split; [now f_equal|exact Hpost].
    + exists (String a s). repeat split. simpl. now intros c [= <-].
Qed.

Lemma take_while_first f c s :
  f c = true -> exists rest, Str.take_while f (String c s) = String c rest.
Proof. intros H. simpl. rewrite H. eauto. Qed.

(** The pattern at the start of a string that has it there. *)
Lemma match_here_path kind c rest :
  kind = "reel" \/ kind = "p" ->
  shortcode_char c = true ->
  exists code,
    match_here ("instagram.com/" ++ kind ++ "/" ++ String c rest)%string =
    Some (kind, code).
Proof.
  intros Hk Hc. unfold match_here. rewrite drop_prefix_app.
  destruct (take_while_first shortcode_char c rest Hc) as [code Hcode].
  exists (String c code).
  destruct Hk as [-> | ->]; unfold match_kind.
  - rewrite <- str_app_assoc, drop_prefix_app, Hcode. reflexivity.
  - change (Str.drop_prefix ("reel" ++ "/") ("p" ++ "/" ++ String c rest))%string
      with (@None string). cbv iota.
    rewrite <- str_app_assoc, drop_prefix_app, Hcode. reflexivity.
Qed.

Lemma re_search_cons c s :
  re_search (String c s) =
  match match_here (String c s) with
  | Some m => Some m
  | None => re_search s
  end.
Proof. reflexivity. Qed.

Lemma re_search_found s m : match_here s = Some m -> re_search s = Some m.
Proof.
  intros H. destruct s as [|c s]; [discriminate|].
  now rewrite re_search_cons, H.
Qed.

Lemma re_search_app pre : forall s m,
  match_here s = Some m -> exists m', re_search (pre ++ s) = Some m'.
Proof.
  induction pre as [|c pre IH]; intros s m H.
  - exists m. now apply re_search_found.
  - rewrite str_app_cons, re_search_cons.
    destruct (match_here (String c (pre ++ s))) as [m'|]; eauto.
Qed.

Lemma match_kind_sound kind s k code :
  match_kind kind s = Some (k, code) ->
  k = kind /\ code <> EmptyString /\ all_chars shortcode_char code = true /\
  exists post,
    s = (kind ++ "/" ++ code ++ post)%string /\
    forall c, first_char post = Some c -> shortcode_char c = false.
Proof.
  unfold match_kind.
  destruct (Str.drop_prefix (kind ++ "/") s) as [rest|] eqn:E; [|discriminate].
  apply drop_prefix_inv in E.
  destruct (take_while_inv shortcode_char rest) as (post & Hrest & Hall & Hpost).
  destruct (Str.take_while shortcode_char rest) as [|a t] eqn:Et; [discriminate|].
  intros [= <- <-]. repeat split; [discriminate|exact Hall|].
  exists post. split; [|exact Hpost].
  now rewrite E, Hrest, str_app_assoc.
Qed.

Lemma match_here_sound s kind code :
  match_here s = Some (kind, code) ->
  (kind = "reel" \/ kind = "p") /\ code <> EmptyString /\
  all_chars shortcode_char code = true /\
  exists post,
    s = ("instagram.com/" ++ kind ++ "/" ++ code ++ post)%string /\
    forall c, first_char post = Some c -> shortcode_char c = false.
Proof.
  unfold match_here.
  destruct (Str.drop_prefix "instagram.com/" s) as [rest|] eqn:E; [|discriminate].
  apply drop_prefix_inv in E. intros H.
  assert (Hm : exists k0, (k0 = "reel" \/ k0 = "p") /\
                          match_kind k0 rest = Some (kind, code)).
  { destruct (match_kind "reel" rest) as [m|] eqn:Er.
    - injection H as ->. eauto.
    - eauto. }
  destruct Hm as (k0 & Hk0 & Hm).
  apply match_kind_sound in Hm as (-> & Hne & Hall & post & Hrest & Hpost).
  repeat split; auto. exists post. split; [|exact Hpost]. now rewrite E, Hrest.
Qed.

Lemma re_search_sound s : forall kind code,
  re_search s = Some (kind, code) ->
  exists pre t, s = (pre ++ t)%string /\ match_here t = Some (kind, code).
Proof.
  induction s as [|c s IH]; intros kind code; [discriminate|].
  rewrite re_search_cons.
  - destruct (match_here (String c s)) as [m|] eqn:E.
    + intros [= ->]. now exists EmptyString, (String c s).
    + intros H. destruct (IH _ _ H) as (pre & t & -> & Ht).
      now exists (String c pre), t.
Qed.

Lemma take_while_app f code : forall post,
  all_chars f code = true ->
  (forall c, first_char post = Some c -> f c = false) ->
  Str.take_while f (code ++ post) = code.
Proof.
  induction code as [|a code IH]; intros post Hall Hpost.
  - change (Str.take_while f post = EmptyString).
    destruct post as [|c post]; [reflexivity|].
    simpl. now rewrite (Hpost c eq_refl).
  - simpl in Hall. apply andb_true_iff in Hall as [Ha Hall].
    rewrite str_app_cons. simpl. rewrite Ha. f_equal. now apply IH.
Qed.

Lemma match_here_exact kind code post :
  kind = "reel" \/ kind = "p" ->
  code <> EmptyString ->
  all_chars shortcode_char code = true ->
  (forall c, first_char post = Some c -> shortcode_char c = false) ->
  match_here ("instagram.com/" ++ kind ++ "/" ++ code ++ post)%string =
  Some (kind, code).
Proof.
  intros Hk Hne Hall Hpost. unfold match_here. rewrite drop_prefix_app.
  assert (Hkind : match_kind kind (kind ++ "/" ++ code ++ post)%string =
                  Some (kind, code)).
  { unfold match_kind.
    rewrite <- str_app_assoc, drop_prefix_app, (take_while_app _ _ _ Hall Hpost).
    destruct code; [contradiction|reflexivity]. }
  destruct Hk as [-> | ->]; [now rewrite Hkind|].
  change (match_kind "reel" ("p" ++ "/" ++ code ++ post)%string)
    with (@None (string * string)).
  exact Hkind.
Qed.

Lemma re_search_skip c s :
  Ascii.eqb "i" c = false -> re_search (String c s) = re_search s.
Proof.
  intros H. rewrite re_search_cons. unfold match_here.
  change (Str.drop_prefix "instagram.com/" (String c s))
    with (if Ascii.eqb "i" c then Str.drop_prefix "nstagram.com/" s else None).
  now rewrite H.
Qed.

Lemma re_search_match (url kind code : string) :
  re_search url = Some (kind, code) ->
  (kind = "reel" \/ kind = "p") /\
  code <> EmptyString /\
  all_chars shortcode_char code = true /\
  exists pre post,
    url = (pre ++ "instagram.com/" ++ kind ++ "/" ++ code ++ post)%string /\
    forall c, first_char post = Some c -> shortcode_char c = false.
Proof.
  intros H. apply re_search_sound in H as (pre & t & -> & Ht).
  apply match_here_sound in Ht as (Hk & Hne & Hall & post & -> & Hpost).
  repeat split; auto. now exists pre, post.
Qed.

(** X1. What [extract_media] returns is a match of the pattern: the kind
    is [reel] or [p], the short code is not empty and has none of [/],
    [?], [#], the URL has [instagram.com/kind/code] in it, and the short
    code is all there is up to the next of these characters. *)
Theorem extract_media_sound (url kind code : string) :
  extract_media url = Some (kind, code) ->
  (kind = "reel" \/ kind = "p") /\
  code <> EmptyString /\
  all_chars shortcode_char code = true /\
  exists pre post,
    url = (pre ++ "instagram.com/" ++ kind ++ "/" ++ code ++ post)%string /\
    forall c, first_char post = Some c -> shortcode_char c = false.
Proof.
  unfold extract_media. intros H.
  destruct (re_search_match url kind code H) as (Hk & Hne & Hall & pre & post & Hu & Hp).
  repeat split; auto. now exists pre, post.
Qed.

(** X2. The URLs [extract_media] accepts are those with
    [instagram.com/reel/] or [instagram.com/p/] in them, followed by a
    character other than [/], [?], [#]; every other URL gives [None]. *)
Theorem extract_media_accepts (url : string) :
  extract_media url <> None <->
  exists pre kind c rest,
    (kind = "reel" \/ kind = "p") /\
    shortcode_char c = true /\
    url = (pre ++ "instagram.com/" ++ kind ++ "/" ++ String c rest)%string.
Proof.
  split.
  - destruct (extract_media url) as [[kind code]|] eqn:E; [|congruence].
    intros _. apply re_search_match in E
      as (Hk & Hne & Hall & pre & post & -> & _).
    destruct code as [|c code]; [contradiction|].
    simpl in Hall. apply andb_true_iff in Hall as [Hc _].
    exists pre, kind, c, (code ++ post)%string. now rewrite str_app_cons.
  - intros (pre & kind & c & rest & Hk & Hc & ->).
    destruct (match_here_path kind c rest Hk Hc) as [code Hm].
    destruct (re_search_app pre _ _ Hm) as [m' Hm'].
    unfold extract_media. now rewrite Hm'.
Qed.

(** X3. The address [main] sends as referer, built from what
    [extract_media] returned, is itself a URL of the post: [extract_media]
    gives the same kind and short code for it. *)
Theorem extract_media_referer (url kind code : string) :
  extract_media url = Some (kind, code) ->
  extract_media ("https://www.instagram.com/" ++ kind ++ "/" ++ code ++ "/")%string =
  Some (kind, code).
Proof.
  intros H. apply re_search_match in H as (Hk & Hne & Hall & _).
  unfold extract_media.
  change ("https://www.instagram.com/" ++ kind ++ "/" ++ code ++ "/")%string
    with ("https://www." ++ ("instagram.com/" ++ kind ++ "/" ++ code ++ "/"))%string.
  change ("https://www." ++ ("instagram.com/" ++ kind ++ "/" ++ code ++ "/"))%string
    with (String "h" (String "t" (String "t" (String "p" (String "s" (String ":"
           (String "/" (String "/" (String "w" (String "w" (String "w" (String "."
           ("instagram.com/" ++ kind ++ "/" ++ code ++ "/")))))))))))))%string.
  rewrite !re_search_skip by reflexivity.
  apply re_search_found, match_here_exact; auto.
  simpl. now intros c [= <-].
Qed.

Lemma extract_media_sound_witness :
  ("p" = "reel" \/ "p" = "p") /\
  "XY" <> EmptyString /\
  all_chars shortcode_char "XY" = true /\
  exists pre post,
    "https://www.instagram.com/p/XY/?img_index=1" =
      (pre ++ "instagram.com/" ++ "p" ++ "/" ++ "XY" ++ post)%string /\
    forall c, first_char post = Some c -> shortcode_char c = false.
Proof.
  apply (extract_media_sound "https://www.instagram.com/p/XY/?img_index=1").
  reflexivity.
Defined.

Lemma extract_media_referer_witness :
  extract_media ("https://www.instagram.com/" ++ "reel" ++ "/" ++ "AbC_1" ++ "/")%string =
  Some ("reel", "AbC_1").
Proof.
  apply (extract_media_referer "instagram.com/reel/AbC_1?igsh=x#top").
  reflexivity.
Defined.

(** ** The records *)

Lemma get_dict kvs k d : Py.get (PDict kvs) k d = Ok (match Py.lookup k kvs with Some x => x | None => d end).
Proof. reflexivity. Qed.

Lemma get_ok v k d x : Py.get v k d = Ok x -> exists kvs, v = PDict kvs.
Proof. destruct v; try discriminate. eauto. Qed.

Lemma parse_replies_result es : forall replies,
  parse_replies es replies =
  (rs <- parse_replies es [] ;; Ok (replies ++ rs)).
Proof.
  induction es as [|e es IH]; intros replies; simpl.
  - now rewrite app_nil_r.
  - destruct (Py.get e "node" (PDict [])) as [rnode|]; simpl; [|reflexivity].
    destruct (Py.get rnode "owner" (PDict [])) as [rowner|]; simpl; [|reflexivity].
    destruct (Py.get rnode "id" PNone) as [id|]; simpl; [|reflexivity].
    destruct (Py.get rowner "username" PNone) as [username|]; simpl; [|reflexivity].
    destruct (Py.get rnode "text" PNone) as [text|]; simpl; [|reflexivity].
    destruct (Py.get rnode "like_count" PNone) as [like_count|]; simpl; [|reflexivity].
    destruct (Py.get rnode "created_at" PNone) as [created_at|]; simpl; [|reflexivity].
    rewrite IH. symmetry. rewrite IH.
    destruct (parse_replies es []) as [rs|]; simpl; [|reflexivity].
    now rewrite <- app_assoc.
Qed.

(** A reply is read the way a comment is read without its replies. *)
Lemma parse_replies_cons e es :
  parse_replies (e :: es) [] =
  (rnode <- Py.get e "node" (PDict []) ;;
   r <- parse_comment_node rnode false ;;
   rs <- parse_replies es [] ;;
   Ok (r :: rs)).
Proof.
  simpl. unfold parse_comment_node.
  destruct (Py.get e "node" (PDict [])) as [rnode|]; simpl; [|reflexivity].
  destruct (Py.get rnode "owner" (PDict [])) as [rowner|]; simpl; [|reflexivity].
  destruct (Py.get rnode "id" PNone) as [id|]; simpl; [|reflexivity].
  destruct (Py.get rowner "username" PNone) as [username|]; simpl; [|reflexivity].
  destruct (Py.get rnode "text" PNone) as [text|]; simpl; [|reflexivity].
  destruct (Py.get rnode "like_count" PNone) as [like_count|]; simpl; [|reflexivity].
  destruct (Py.get rnode "created_at" PNone) as [created_at|]; simpl; [|reflexivity].
  now rewrite parse_replies_result.
Qed.

Lemma parse_replies_Forall2 es : forall rs,
  parse_replies es [] = Ok rs ->
  Forall2 (fun e r =>
             (rnode <- Py.get e "node" (PDict []) ;; parse_comment_node rnode false) =
             Ok r) es rs.
Proof.
  induction es as [|e es IH]; intros rs.
  - intros [= <-]. constructor.
  - rewrite parse_replies_cons.
    destruct (Py.get e "node" (PDict [])) as [rnode|] eqn:En; simpl; [|discriminate].
    destruct (parse_comment_node rnode false) as [r|] eqn:Er; simpl; [|discriminate].
    destruct (parse_replies es []) as [rs'|]; simpl; [|discriminate].
    intros [= <-]. constructor; [|now apply IH].
    rewrite En. simpl. exact Er.
Qed.

(** How [parse_comment_node] ends, by cases on the flag. *)
Lemma parse_comment_node_inv node include_replies item :
  parse_comment_node node include_replies = Ok item ->
  exists id username text like_count created_at,
    Py.get node "id" PNone = Ok id /\
    Py.get node "text" PNone = Ok text /\
    Py.get node "like_count" PNone = Ok like_count /\
    Py.get node "created_at" PNone = Ok created_at /\
    (exists owner, Py.get node "owner" (PDict []) = Ok owner /\
                   Py.get owner "username" PNone = Ok username) /\
    if include_replies then
      exists es replies,
        reply_edges_of node = Ok es /\
        parse_replies es [] = Ok replies /\
        item = PDict [("id", id); ("username", username); ("text", text);
                      ("like_count", like_count); ("created_at", created_at);
                      ("replies", PList replies)]
    else
      item = PDict [("id", id); ("username", username); ("text", text);
                    ("like_count", like_count); ("created_at", created_at)].
Proof.
  unfold parse_comment_node, reply_edges_of.
  destruct (Py.get node "owner" (PDict [])) as [owner|] eqn:Eo; simpl; [|discriminate].
  destruct (Py.get node "id" PNone) as [id|]; simpl; [|discriminate].
  destruct (Py.get owner "username" PNone) as [username|] eqn:Eu; simpl; [|discriminate].
  destruct (Py.get node "text" PNone) as [text|]; simpl; [|discriminate].
  destruct (Py.get node "like_count" PNone) as [like_count|]; simpl; [|discriminate].
  destruct (Py.get node "created_at" PNone) as [created_at|]; simpl; [|discriminate].
  intros H. exists id, username, text, like_count, created_at.
  repeat split; eauto.
  destruct include_replies.
  - destruct (Py.get node "edge_threaded_comments" (PDict [])) as [info|];
      simpl in *; [|discriminate].
    destruct (Py.get info "edges" (PList [])) as [edges|]; simpl in *; [|discriminate].
    destruct (Py.iter edges) as [es|]; simpl in *; [|discriminate].
    destruct (parse_replies es []) as [replies|] eqn:Er; simpl in *; [|discriminate].
    injection H as <-. exists es, replies. repeat split; auto.
  - now injection H as <-.
Qed.

Lemma parse_comment_node_record node include_replies item :
  parse_comment_node node include_replies = Ok item ->
  is_record include_replies item.
Proof.
  intros H. apply parse_comment_node_inv in H
    as (id & username & text & like_count & created_at & _ & _ & _ & _ & _ & H).
  unfold is_record. destruct include_replies.
  - destruct H as (es & replies & _ & _ & ->).
    now exists id, username, text, like_count, created_at, replies.
  - subst. now exists id, username, text, like_count, created_at, [].
Qed.

(** X4. With replies asked for, the record of a comment has one reply
    per reply edge of its node, each read as a comment is read without
    replies, in the order of the edges, and [reply_count] in the CSV
    file is the number of those edges; without, [reply_count] is 0. *)
Theorem parse_comment_node_replies (node item : pyval) (include_replies : bool) :
  parse_comment_node node include_replies = Ok item ->
  if include_replies then
    exists es replies,
      reply_edges_of node = Ok es /\
      Py.get item "replies" PNone = Ok (PList replies) /\
      Forall2 (fun e r =>
                 (rnode <- Py.get e "node" (PDict []) ;;
                  parse_comment_node rnode false) = Ok r) es replies /\
      reply_count item = Ok (Z.of_nat (length es))
  else
    Py.get item "replies" PNone = Ok PNone /\ reply_count item = Ok 0.
Proof.
  intros H. apply parse_comment_node_inv in H
    as (id & username & text & like_count & created_at & _ & _ & _ & _ & _ & H).
  destruct include_replies.
  - destruct H as (es & replies & Hes & Hr & ->).
    exists es, replies. pose proof (parse_replies_Forall2 _ _ Hr) as HF.
    repeat split; auto.
    rewrite reply_count_length. simpl. now rewrite (Forall2_length _ _ _ HF).
  - subst. split; reflexivity.
Qed.

Lemma parse_comment_node_replies_witness :
  exists es replies,
    reply_edges_of
      (PDict [("id", PStr "1");
              ("edge_threaded_comments",
               PDict [("edges", PList [Sample.comment "2" "gil" "re" (PInt 1);
                                       PDict []])])]) = Ok es /\
    Py.get (PDict [("id", PStr "1"); ("username", PNone); ("text", PNone);
                   ("like_count", PNone); ("created_at", PNone);
                   ("replies",
                    PList [Sample.record (PStr "2") "gil" "re" (PInt 1);
                           PDict [("id", PNone); ("username", PNone);
                                  ("text", PNone); ("like_count", PNone);
                                  ("created_at", PNone)]])])
      "replies" PNone = Ok (PList replies) /\
    Forall2 (fun e r =>
               (rnode <- Py.get e "node" (PDict []) ;;
                parse_comment_node rnode false) = Ok r) es replies /\
    reply_count (PDict [("id", PStr "1"); ("username", PNone); ("text", PNone);
                        ("like_count", PNone); ("created_at", PNone);
                        ("replies",
                         PList [Sample.record (PStr "2") "gil" "re" (PInt 1);
                                PDict [("id", PNone); ("username", PNone);
                                       ("text", PNone); ("like_count", PNone);
                                       ("created_at", PNone)]])]) =
    Ok (Z.of_nat (length es)).
Proof.
  apply (parse_comment_node_replies
           (PDict [("id", PStr "1");
                   ("edge_threaded_comments",
                    PDict [("edges", PList [Sample.comment "2" "gil" "re" (PInt 1);
                                            PDict []])])]) _ true).
  reflexivity.
Defined.

(** ** More on the pagination loop *)

Section FetchMore.

Variables (shortcode : string) (headers : list (string * string)).
Variables (per_page : Z) (include_replies : bool).
Variables (max_comments : option Z) (min_likes : Z).

Local Abbreviation cap := (cap_reached max_comments).
Local Abbreviation edges_loop := (for_edges include_replies max_comments min_likes).
Local Abbreviation page := (read_page include_replies max_comments min_likes).
Local Abbreviation body :=
  (loop_body shortcode headers per_page include_replies max_comments min_likes).
Local Abbreviation loop :=
  (fetch_loop shortcode headers per_page include_replies max_comments min_likes).
Local Abbreviation fetch :=
  (fetch_parent_comments shortcode headers per_page include_replies
     max_comments min_likes).

Lemma edge_item_record edge item keep :
  edge_item include_replies min_likes edge = Ok (item, keep) ->
  is_record include_replies item.
Proof.
  unfold edge_item.
  destruct (Py.get edge "node" (PDict [])) as [node|]; [|discriminate]. simpl.
  destruct (parse_comment_node node include_replies) as [it|] eqn:E; [|discriminate].
  simpl. destruct (enough_likes min_likes it); [|discriminate]. simpl.
  intros [= <- _]. now apply parse_comment_node_record in E.
Qed.

Lemma for_edges_records es : forall results hn res o,
  Forall (is_record include_replies) results ->
  edges_loop es results hn = (res, o) ->
  Forall (is_record include_replies) res.
Proof.
  induction es as [|edge es IH]; intros results hn res o HF; simpl.
  - now intros [= <- _].
  - destruct (edge_item include_replies min_likes edge) as [[item keep]|e] eqn:E;
      [|now intros [= <- _]].
    apply edge_item_record in E.
    assert (HF' : Forall (is_record include_replies)
                    (if keep then results ++ [item] else results)).
    { destruct keep; [|exact HF]. apply Forall_app. split; [exact HF|].
      now repeat constructor. }
    destruct (cap (if keep then results ++ [item] else results)).
    + now intros [= <- _].
    + now apply IH.
Qed.

(** X5. Every element of the sequence [fetch_parent_comments] returns is
    a record: a dict of the five fields [id], [username], [text],
    [like_count], [created_at] in this order, followed by the list
    [replies] exactly when replies are asked for. *)
Theorem fetched_are_records (script : list reply) (log : list request)
    (res : list pyval) :
  fetch script = (log, Returned res) ->
  Forall (is_record include_replies) res.
Proof.
  intros H.
  apply (fetch_loop_inv _ _ _ _ _ _
           (Forall (is_record include_replies))
           (Forall (is_record include_replies))) in H; simpl; auto.
  intros es results hn res' o. apply for_edges_records.
Qed.

(** *** What the loop can raise *)

Lemma bind_raises {A B : Type} (R : exn -> Prop) (o : outcome A)
    (k : A -> outcome B) :
  raises_only R o -> (forall a, raises_only R (k a)) -> raises_only R (bind o k).
Proof.
  intros Ho Hk e. destruct o as [a|e0]; simpl; [apply Hk|].
  intros [= <-]. now apply Ho.
Qed.

Lemma ok_raises {A : Type} (R : exn -> Prop) (a : A) : raises_only R (Ok a).
Proof. intros e. discriminate. Qed.

Lemma get_raises v k d : raises_only (fun e => e = AttributeError) (Py.get v k d).
Proof. intros e. destruct v; simpl; congruence. Qed.

Lemma get_raises_shape v k d : raises_only shape_error (Py.get v k d).
Proof. intros e H. left. eapply get_raises, H. Qed.

Lemma iter_raises v : raises_only shape_error (Py.iter v).
Proof. intros e. destruct v; simpl; try discriminate; intros [= <-]; now right. Qed.

Lemma parse_replies_raises es : forall replies,
  raises_only shape_error (parse_replies es replies).
Proof.
  induction es as [|x es IH]; intros replies; simpl; [apply ok_raises|].
  repeat (apply bind_raises; [apply get_raises_shape|intros ?]).
  apply IH.
Qed.

Lemma parse_comment_node_raises node :
  raises_only shape_error (parse_comment_node node include_replies).
Proof.
  unfold parse_comment_node.
  repeat (apply bind_raises; [apply get_raises_shape|intros ?]).
  destruct include_replies; [|apply ok_raises].
  repeat (apply bind_raises; [apply get_raises_shape|intros ?]).
  apply bind_raises; [apply iter_raises|intros ?].
  apply bind_raises; [apply parse_replies_raises|intros ?; apply ok_raises].
Qed.

Lemma enough_likes_raises item :
  raises_only shape_error (enough_likes min_likes item).
Proof.
  unfold enough_likes, Py.ge.
  apply bind_raises; [apply get_raises_shape|intros lk e].
  destruct (Py.as_int _); [discriminate|]. intros [= <-]. now right.
Qed.

Lemma edge_item_raises edge :
  raises_only shape_error (edge_item include_replies min_likes edge).
Proof.
  unfold edge_item.
  apply bind_raises; [apply get_raises_shape|intros node].
  apply bind_raises; [apply parse_comment_node_raises|intros item].
  apply bind_raises; [apply enough_likes_raises|intros keep; apply ok_raises].
Qed.

Lemma for_edges_raises es : forall results hn res e,
  edges_loop es results hn = (res, Raise e) -> shape_error e.
Proof.
  induction es as [|edge es IH]; intros results hn res e; simpl; [discriminate|].
  destruct (edge_item include_replies min_likes edge) as [[item keep]|e'] eqn:E.
  - destruct (cap _); [discriminate|apply IH].
  - intros [= _ <-]. now apply edge_item_raises in E.
Qed.

Lemma page_edges_raises media :
  raises_only (fun e => e = KeyError \/ shape_error e) (page_edges media).
Proof.
  unfold page_edges. apply bind_raises.
  - intros e. destruct media; simpl; try (intros [= <-]; right; now right).
    destruct (Py.lookup _ kvs); [discriminate|]. intros [= <-]. now left.
  - intros edge_info.
    apply bind_raises; [intros e H; right; eapply get_raises_shape, H|intros edges].
    apply bind_raises; [intros e H; right; eapply iter_raises, H|].
    intros es. apply ok_raises.
Qed.

Lemma shortcode_media_raises data : raises_only shape_error (shortcode_media data).
Proof.
  unfold shortcode_media.
  apply bind_raises; [apply get_raises_shape|intros d; apply get_raises_shape].
Qed.

Lemma read_page_raises data results hn res e :
  page data results hn = (res, Raise e) -> e = KeyError \/ shape_error e.
Proof.
  unfold read_page.
  destruct (shortcode_media data) as [media|e'] eqn:Em.
  - destruct (negb (Py.truthy media)); [discriminate|].
    destruct (page_edges media) as [[edge_info es]|e'] eqn:Ee.
    + destruct (edges_loop es results hn) as [res' [b|e']] eqn:El;
        simpl; [discriminate|].
      intros [= _ <-]. right. now apply for_edges_raises in El.
    + intros [= _ <-]. now apply page_edges_raises in Ee.
  - intros [= _ <-]. right. now apply shortcode_media_raises in Em.
Qed.

(** What a pass through the body raises: the exit of [graphql_request]
    on a bad reply, the error of the connection, or the error of a reply
    of the wrong shape. *)
Lemma loop_body_raises st r rq e :
  body st r = (rq, Raise e) ->
  (e = SystemExit 1 /\ bad_reply r) \/
  (e = OSError /\ r = NoConnection) \/
  (shape_error e /\ exists data, r = Reply 200 (Some data)).
Proof.
  unfold loop_body, graphql_request. intros [= _ H]. revert H.
  destruct r as [|code [data|]]; simpl.
  - intros [= <-]. auto.
  - destruct (Z.eqb_spec code 200) as [->|Hne]; simpl.
    + intros H. right; right. split; [|eauto].
      destruct (page data (results st) (has_next st)) as [res [x|e']] eqn:E.
      * destruct x as [|edge_info hn]; [discriminate|].
        revert H. apply bind_raises; [apply get_raises_shape|intros ?].
        apply bind_raises; [apply get_raises_shape|intros ?].
        apply bind_raises; [apply get_raises_shape|intros ?; apply ok_raises].
      * apply read_page_raises in E as [->|E]; [discriminate|].
        destruct e'; try discriminate; now injection H as <-.
    + intros [= <-]. left. split; [reflexivity|now constructor].
  - destruct (Z.eqb_spec code 200) as [->|Hne]; simpl; intros [= <-]; left;
      (split; [reflexivity|]); [apply bad_body|now constructor].
Qed.

Lemma fetch_loop_failures script : forall log st e,
  loop script st = (log, Failed e) ->
  (e = SystemExit 1 /\ exists pre bad post,
      script = pre ++ bad :: post /\ bad_reply bad /\
      length log = S (length pre)) \/
  (e = OSError /\ In NoConnection script) \/
  shape_error e.
Proof.
  induction script as [|r script IH]; intros log st e.
  - rewrite fetch_loop_nil. destruct (has_next st); discriminate.
  - rewrite fetch_loop_cons. destruct (has_next st); [|discriminate].
    destruct (body st r) as [rq [[st'|res]|e']] eqn:E.
    + destruct (loop script st') as [log' r'] eqn:E'. intros [= <- ->].
      destruct (IH _ _ _ E') as [(-> & pre & bad & post & -> & Hb & Hl)|[(-> & Hin)|Hs]].
      * left. split; [reflexivity|].
        exists (r :: pre), bad, post. simpl. auto.
      * right; left. split; [reflexivity|now right].
      * auto.
    + discriminate.
    + intros [= <- <-].
      apply loop_body_raises in E as [(-> & Hb)|[(-> & ->)|(Hs & _)]].
      * left. split; [reflexivity|]. now exists [], r, script.
      * right; left. split; [reflexivity|now left].
      * auto.
Qed.

(** X6. When [fetch_parent_comments] fails, it is with the exit status 1
    of a bad reply (and the script has such a reply), with the error of
    a lost connection, or with [AttributeError] or [TypeError] from a
    reply of the wrong shape: never with [KeyError], which the loop
    catches, nor with another exit status. *)
Theorem fetch_failures (script : list reply) (log : list request) (e : exn) :
  fetch script = (log, Failed e) ->
  (e = SystemExit 1 /\ exists pre bad post,
      script = pre ++ bad :: post /\ bad_reply bad /\
      length log = S (length pre)) \/
  (e = OSError /\ In NoConnection script) \/
  shape_error e.
Proof.
  unfold fetch_parent_comments. intros H.
  destruct (fetch_loop_failures _ _ _ _ H) as [Hexit|[Hconn|Hshape]]; auto.
Qed.

End FetchMore.

(** ** The requests *)

Section FetchTrace.

Variables (shortcode : string) (headers : list (string * string)).
Variables (per_page : Z) (include_replies : bool).
Variables (max_comments : option Z) (min_likes : Z).

Local Abbreviation cap := (cap_reached max_comments).
Local Abbreviation edges_loop := (for_edges include_replies max_comments min_likes).
Local Abbreviation page := (read_page include_replies max_comments min_likes).
Local Abbreviation body :=
  (loop_body shortcode headers per_page include_replies max_comments min_likes).
Local Abbreviation loop :=
  (fetch_loop shortcode headers per_page include_replies max_comments min_likes).
Local Abbreviation fetch :=
  (fetch_parent_comments shortcode headers per_page include_replies
     max_comments min_likes).

Lemma loop_body_request st r :
  fst (body st r) = request_for shortcode headers per_page (cursor st).
Proof.
  unfold loop_body, graphql_request, request_for. simpl.
  now destruct (Py.truthy (cursor st)).
Qed.

(** The state after a pass that goes on has the cursor of the reply. *)
Lemma loop_body_next st r rq st' :
  body st r = (rq, Ok (Next st')) -> cursor st' = cursor_after r.
Proof.
  unfold loop_body, graphql_request. intros [= _ H]. revert H.
  destruct r as [|code [data|]]; simpl; try discriminate;
    destruct (negb (code =? 200)); simpl; try discriminate.
  unfold read_page, end_cursor_of.
  destruct (shortcode_media data) as [media|e]; simpl; [|now destruct e].
  destruct (negb (Py.truthy media)); [discriminate|].
  destruct (page_edges media) as [[edge_info es]|e]; simpl; [|now destruct e].
  destruct (edges_loop es (results st) (has_next st)) as [res [hn|e]]; simpl;
    [|now destruct e].
  destruct (Py.get edge_info "page_info" (PDict [])) as [page_info|]; simpl;
    [|discriminate].
  destruct (Py.get page_info "has_next_page" PNone) as [np|] eqn:En; simpl.
  - destruct (Py.get page_info "end_cursor" PNone) as [ec|]; simpl; [|discriminate].
    now intros [= <-].
  - discriminate.
Qed.

Lemma fetch_loop_requests script : forall st log r,
  loop script st = (log, r) ->
  log = map (request_for shortcode headers per_page)
          (firstn (length log) (cursor st :: map cursor_after script)).
Proof.
  induction script as [|rp script IH]; intros st log r.
  - rewrite fetch_loop_nil. destruct (has_next st); now intros [= <- _].
  - rewrite fetch_loop_cons. destruct (has_next st); [|now intros [= <- _]].
    pose proof (loop_body_request st rp) as Hrq.
    destruct (body st rp) as [rq [[st'|res]|e]] eqn:E; simpl in Hrq; subst rq.
    + destruct (loop script st') as [log' r'] eqn:E'. intros [= <- _].
      simpl. f_equal. rewrite <- (loop_body_next _ _ _ _ E). now apply IH in E'.
    + now intros [= <- _].
    + now intros [= <- _].
Qed.

(** X7. The requests [fetch_parent_comments] sends are determined by
    the replies: each has the query hash, the headers, the short code
    and the page size; the first has no [after]; each later one has as
    [after] the [end_cursor] of the reply before it when that is a true
    value, and no [after] otherwise. *)
Theorem fetch_requests (script : list reply) (log : list request)
    (r : run (list pyval)) :
  fetch script = (log, r) ->
  log = map (request_for shortcode headers per_page)
          (firstn (length log) (PNone :: map cursor_after script)).
Proof.
  unfold fetch_parent_comments. intros H.
  exact (fetch_loop_requests script _ log r H).
Qed.

End FetchTrace.

(** ** Runs over well-shaped pages *)

Section FetchPages.

Variables (shortcode : string) (headers : list (string * string)).
Variables (per_page : Z) (include_replies : bool) (min_likes : Z).

Local Arguments cap_reached : simpl never.

Lemma readable_cons e es :
  readable include_replies min_likes (e :: es) = true ->
  (exists item keep, edge_item include_replies min_likes e = Ok (item, keep)) /\
  readable include_replies min_likes es = true.
Proof.
  unfold readable. simpl. intros H. apply andb_true_iff in H as [He Hes].
  split; [|exact Hes].
  destruct (edge_item include_replies min_likes e) as [[item keep]|];
    [eauto|discriminate].
Qed.

(** Without a maximum the loop over the edges adds every kept record. *)
Lemma for_edges_all es : forall results hn,
  readable include_replies min_likes es = true ->
  for_edges include_replies None min_likes es results hn =
  (results ++ kept include_replies min_likes es, Ok hn).
Proof.
  induction es as [|e es IH]; intros results hn Hr; simpl.
  - now rewrite app_nil_r.
  - apply readable_cons in Hr as [(item & keep & ->) Hr].
    destruct keep; rewrite (IH _ _ Hr); [|reflexivity].
    now rewrite <- app_assoc.
Qed.

(** The pass through the body on a page: the state it leaves. *)
Lemma loop_body_page max_comments st data es next_page end_cursor res hn :
  page_shape data es next_page end_cursor ->
  for_edges include_replies max_comments min_likes es (results st) (has_next st) =
    (res, Ok hn) ->
  snd (loop_body shortcode headers per_page include_replies max_comments
         min_likes st (Reply 200 (Some data))) =
  Ok (Next {| results := res;
              has_next := Py.truthy next_page && negb (cap_reached max_comments res);
              cursor := end_cursor |}).
Proof.
  intros (media & edge_info & page_info & Hm & Ht & He & Hi & <- & <-) Hes.
  unfold loop_body, graphql_request. simpl negb.
  cbv beta iota delta [bind snd].
  unfold read_page. rewrite Hm, Ht. simpl negb. cbv iota.
  rewrite He, Hes. cbv beta iota delta [bind]. rewrite Hi.
  reflexivity.
Qed.

Lemma fetch_loop_pages_all script all :
  page_chain include_replies min_likes script all ->
  forall st post,
    has_next st = true ->
    exists log,
      fetch_loop shortcode headers per_page include_replies None min_likes
        (script ++ post) st = (log, Returned (results st ++ all)) /\
      length log = length script.
Proof.
  induction 1 as [data es next_page end_cursor Hp Hr Hn
                 |data es next_page end_cursor script all Hp Hr Hn Hc IH];
    intros st post Hst; rewrite <- app_comm_cons, fetch_loop_cons, Hst;
    pose proof (loop_body_page None st data es next_page end_cursor _ _ Hp
                  (for_edges_all es (results st) (has_next st) Hr)) as Hb;
    destruct (loop_body _ _ _ _ _ _ st _) as [rq o]; simpl in Hb; subst o;
    rewrite Hn; simpl andb.
  - exists [rq]. split; [|reflexivity]. now destruct post.
  - destruct (IH {| results := results st ++ kept include_replies min_likes es;
                    has_next := true; cursor := end_cursor |} post eq_refl)
      as (log & -> & Hlen).
    exists (rq :: log). simpl. rewrite <- app_assoc, Hlen. auto.
Qed.

(** X9. Without a maximum, over a script of well-shaped pages of which
    the last one is the first to announce no next page, the result is
    the records kept from all the pages, in the order of arrival, after
    one request per page. *)
Theorem fetch_all_pages (script : list reply) (all : list pyval)
    (post : list reply) :
  page_chain include_replies min_likes script all ->
  exists log,
    fetch_parent_comments shortcode headers per_page include_replies None
      min_likes (script ++ post) = (log, Returned all) /\
    length log = length script.
Proof.
  intros Hc. unfold fetch_parent_comments.
  now apply (fetch_loop_pages_all script all Hc
               {| results := []; has_next := true; cursor := PNone |} post).
Qed.

(** *** With a positive maximum *)

Variable m : Z.
Hypothesis m_pos : 0 < m.

Lemma for_edges_upto es : forall results,
  readable include_replies min_likes es = true ->
  Z.of_nat (length results) < m ->
  exists hn,
    for_edges include_replies (Some m) min_likes es results true =
    (results ++ firstn (Z.to_nat m - length results)
                  (kept include_replies min_likes es), Ok hn) /\
    hn = negb (cap_reached (Some m)
                 (results ++ firstn (Z.to_nat m - length results)
                               (kept include_replies min_likes es))).
Proof.
  induction es as [|e es IH]; intros results Hr Hlen; simpl.
  - exists true. rewrite firstn_nil, app_nil_r. split; [reflexivity|].
    rewrite (cap_reached_pos (Some m) m m_pos eq_refl).
    destruct (Z.leb_spec m (Z.of_nat (length results))); [lia|reflexivity].
  - apply readable_cons in Hr as [(item & keep & ->) Hr].
    rewrite (cap_reached_pos (Some m) m m_pos eq_refl).
    destruct keep.
    + assert (Hl : length (results ++ [item]) = S (length results))
        by (rewrite length_app; simpl; lia).
      replace (Z.to_nat m - length results)%nat
        with (S (Z.to_nat m - length (results ++ [item])))%nat by lia.
      simpl firstn.
      replace (results ++ item ::
               firstn (Z.to_nat m - length (results ++ [item]))
                 (kept include_replies min_likes es))
        with ((results ++ [item]) ++
              firstn (Z.to_nat m - length (results ++ [item]))
                (kept include_replies min_likes es))
        by now rewrite <- app_assoc.
      destruct (Z.leb_spec m (Z.of_nat (length (results ++ [item])))).
      * exists false.
        replace (Z.to_nat m - length (results ++ [item]))%nat with 0%nat by lia.
        simpl firstn. rewrite app_nil_r. split; [reflexivity|].
        rewrite (cap_reached_pos (Some m) m m_pos eq_refl).
        destruct (Z.leb_spec m (Z.of_nat (length (results ++ [item]))));
          [reflexivity|lia].
      * apply IH; [exact Hr|lia].
    + destruct (Z.leb_spec m (Z.of_nat (length results))); [lia|].
      now apply IH.
Qed.

Lemma fetch_loop_pages_upto script all :
  page_chain include_replies min_likes script all ->
  forall st post,
    has_next st = true ->
    Z.of_nat (length (results st)) < m ->
    exists log,
      fetch_loop shortcode headers per_page include_replies (Some m) min_likes
        (script ++ post) st =
      (log, Returned (results st ++ firstn (Z.to_nat m - length (results st)) all)) /\
      (length log <= length script)%nat.
Proof.
  induction 1 as [data es next_page end_cursor Hp Hr Hn
                 |data es next_page end_cursor script all Hp Hr Hn Hc IH];
    intros st post Hst Hlen; rewrite <- app_comm_cons, fetch_loop_cons, Hst;
    destruct (for_edges_upto es (results st) Hr Hlen) as (hn & Hes & Hhn);
    rewrite <- Hst in Hes at 1;
    pose proof (loop_body_page (Some m) st data es next_page end_cursor _ _ Hp Hes)
      as Hb;
    destruct (loop_body _ _ _ _ _ _ st _) as [rq o]; simpl in Hb; subst o;
    rewrite Hn; simpl andb.
  - exists [rq]. split; [|simpl; lia]. now destruct post.
  - rewrite <- Hhn.
    set (res := results st ++ firstn (Z.to_nat m - length (results st))
                               (kept include_replies min_likes es)) in *.
    assert (Hres : Z.of_nat (length res) <= m).
    { unfold res. rewrite length_app, length_firstn. lia. }
    destruct hn.
    + (* the cap is not reached: every kept record of the page is in *)
      symmetry in Hhn. apply negb_true_iff in Hhn.
      rewrite (cap_reached_pos (Some m) m m_pos eq_refl) in Hhn.
      apply Z.leb_gt in Hhn.
      assert (Hall : res = results st ++ kept include_replies min_likes es).
      { unfold res in *. rewrite length_app, length_firstn in Hhn.
        rewrite firstn_all2; [reflexivity|lia]. }
      destruct (IH {| results := res; has_next := true; cursor := end_cursor |}
                  post eq_refl Hhn) as (log & -> & Hl).
      exists (rq :: log). split; [|simpl; lia]. simpl results.
      f_equal. f_equal. rewrite Hall, <- app_assoc. f_equal.
      rewrite length_app.
      rewrite firstn_app.
      replace (Z.to_nat m - length (results st) -
               length (kept include_replies min_likes es))%nat
        with (Z.to_nat m - (length (results st) +
                            length (kept include_replies min_likes es)))%nat by lia.
      f_equal. rewrite Hall, length_app in Hhn.
      rewrite firstn_all2; [reflexivity|lia].
    + (* the cap is reached on this page *)
      symmetry in Hhn. apply negb_false_iff in Hhn.
      rewrite (cap_reached_pos (Some m) m m_pos eq_refl) in Hhn.
      apply Z.leb_le in Hhn.
      exists [rq]. split; [|simpl; lia].
      replace (fetch_loop shortcode headers per_page include_replies (Some m)
                 min_likes (script ++ post)
                 {| results := res; has_next := false; cursor := end_cursor |})
        with (@nil request, Returned res) by (now destruct (script ++ post)).
      f_equal. f_equal. unfold res in *. f_equal.
      rewrite firstn_app.
      rewrite length_app, length_firstn in Hhn, Hres.
      replace (Z.to_nat m - length (results st) -
               length (kept include_replies min_likes es))%nat with 0%nat by lia.
      simpl. now rewrite app_nil_r.
Qed.

(** X10. With a positive maximum, over such a script of pages, the
    result is the first records kept, up to the maximum, and no more
    requests are sent than there are pages. *)
Theorem fetch_pages_up_to_cap (script : list reply) (all : list pyval)
    (post : list reply) :
  page_chain include_replies min_likes script all ->
  exists log,
    fetch_parent_comments shortcode headers per_page include_replies (Some m)
      min_likes (script ++ post) = (log, Returned (firstn (Z.to_nat m) all)) /\
    (length log <= length script)%nat.
Proof.
  intros Hc. unfold fetch_parent_comments.
  destruct (fetch_loop_pages_upto script all Hc
              {| results := []; has_next := true; cursor := PNone |} post
              eq_refl m_pos) as (log & Hl & Hlen).
  exists log. split; [|exact Hlen].
  rewrite Hl. simpl. now rewrite Nat.sub_0_r.
Qed.

End FetchPages.

(** ** Edges of the documented shape *)

Lemma good_reply_edges_parse es : forall replies,
  forallb good_reply_edge es = true ->
  exists rs, parse_replies es replies = Ok rs.
Proof.
  induction es as [|e es IH]; intros replies H; simpl in *; [eauto|].
  apply andb_true_iff in H as [He Hes].
  destruct e as [| | | | |kvs]; try discriminate. simpl in He |- *.
  destruct (Py.lookup "node" kvs) as [[| | | | |node]|]; try discriminate; simpl.
  - destruct (Py.lookup "owner" node) as [[| | | | |owner]|]; try discriminate;
      simpl; apply IH, Hes.
  - apply IH, Hes.
Qed.

Lemma good_node_parse include_replies node :
  good_node node = true ->
  (include_replies = true -> good_replies node = true) ->
  exists item,
    parse_comment_node node include_replies = Ok item /\
    (exists kvs, item = PDict kvs /\
       match Py.lookup "like_count" kvs with
       | None | Some PNone | Some (PInt _) | Some (PBool _) => True
       | _ => False
       end).
Proof.
  intros Hn Hr. destruct node as [| | | | |kvs]; try discriminate.
  unfold good_node in Hn. apply andb_true_iff in Hn as [Ho Hl].
  unfold parse_comment_node. rewrite !get_dict.
  assert (Howner : exists o, (match Py.lookup "owner" kvs with
                              | Some x => x | None => PDict [] end) = PDict o).
  { destruct (Py.lookup "owner" kvs) as [[]|]; try discriminate; eauto. }
  destruct Howner as [o ->]. cbv beta iota delta [bind]. rewrite get_dict.
  cbv beta iota delta [bind].
  assert (Hlikes : match (match Py.lookup "like_count" kvs with
                          | Some x => x | None => PNone end) with
                   | PNone | PInt _ | PBool _ => True
                   | _ => False
                   end).
  { destruct (Py.lookup "like_count" kvs) as [[]|]; try discriminate; exact I. }
  destruct include_replies.
  - specialize (Hr eq_refl). simpl in Hr.
    assert (Hes : exists es,
               (replies_info <- Ok (match Py.lookup "edge_threaded_comments" kvs with
                                    | Some x => x | None => PDict [] end) ;;
                reply_edges <- Py.get replies_info "edges" (PList []) ;;
                Py.iter reply_edges) = Ok es /\
               forallb good_reply_edge es = true).
    { destruct (Py.lookup "edge_threaded_comments" kvs) as [[| | | | |info]|];
        try discriminate; simpl; [|eauto].
      destruct (Py.lookup "edges" info) as [[| | | |es|]|]; try discriminate;
        simpl; eauto. }
    destruct Hes as (es & Hes & Hgood).
    destruct (good_reply_edges_parse es [] Hgood) as [rs Hrs].
    cbv beta iota delta [bind] in Hes.
    destruct (match Py.lookup "edge_threaded_comments" kvs with
              | Some x => x | None => PDict [] end) as [| | | | |info];
      try discriminate.
    rewrite get_dict in Hes |- *. cbv beta iota delta [bind] in Hes |- *.
    rewrite Hes. cbv beta iota delta [bind]. rewrite Hrs.
    cbv beta iota delta [bind].
    eexists. split; [reflexivity|]. eexists. split; [reflexivity|].
    simpl. destruct (match Py.lookup "like_count" kvs with
                     | Some x => x | None => PNone end); auto.
  - eexists. split; [reflexivity|]. eexists. split; [reflexivity|].
    simpl. destruct (match Py.lookup "like_count" kvs with
                     | Some x => x | None => PNone end); auto.
Qed.

(** X11. An edge of the documented shape is always read: when the edge
    is an object whose node, if any, is an object with an object as
    owner (if any), an integer, a boolean, [None] or nothing as like
    count and, when replies are asked for, reply edges of the same kind,
    neither [parse_comment_node] nor the comparison of the likes raises. *)
Theorem good_edges_readable (include_replies : bool) (min_likes : Z)
    (es : list pyval) :
  forallb (good_edge include_replies) es = true ->
  readable include_replies min_likes es = true.
Proof.
  unfold readable. induction es as [|e es IH]; simpl; [reflexivity|].
  intros H. apply andb_true_iff in H as [He Hes]. rewrite (IH Hes), andb_true_r.
  destruct e as [| | | | |kvs]; try discriminate.
  unfold edge_item. rewrite get_dict. cbv beta iota delta [bind].
  assert (Hnode : exists item kvs',
             parse_comment_node (match Py.lookup "node" kvs with
                                 | Some x => x | None => PDict [] end)
               include_replies = Ok item /\ item = PDict kvs' /\
             match Py.lookup "like_count" kvs' with
             | None | Some PNone | Some (PInt _) | Some (PBool _) => True
             | _ => False
             end).
  { simpl in He. destruct (Py.lookup "node" kvs) as [node|].
    - apply andb_true_iff in He as [Hn Hr].
      destruct (good_node_parse include_replies node Hn) as (item & Hp & kvs' & -> & Hl).
      + intros ->. exact Hr.
      + eauto.
    - destruct (good_node_parse include_replies (PDict []) eq_refl)
        as (item & Hp & kvs' & -> & Hl); [reflexivity|eauto]. }
  destruct Hnode as (item & kvs' & -> & -> & Hl).
  unfold enough_likes. rewrite get_dict. cbv beta iota delta [bind].
  destruct (Py.lookup "like_count" kvs') as [[| b | n | | |]|];
    try contradiction; try reflexivity.
  - unfold Py.or_. simpl. now destruct b.
  - unfold Py.or_. simpl. now destruct (n =? 0).
Qed.

(** ** More on deduplication *)

Lemma distinct_from_keys key l : forall seen,
  distinct_from key seen l <->
  Forall (fun it => exists h, key_hash key it = Some h /\ h ∉ seen) l /\
  NoDup (map (key_hash key) l).
Proof.
  induction l as [|it l IH]; intros seen.
  - split; [intros _; split; constructor|intros _; constructor].
  - split.
    + intros H. inversion H as [|? ? ? h Hk Hn Hl]; subst.
      apply IH in Hl as [HF HN]. split.
      * constructor; [eauto|].
        eapply List.Forall_impl; [|exact HF].
        intros x (h' & Hx & Hn'). exists h'. split; [exact Hx|].
        intros Hin. apply Hn', elem_of_union. now right.
      * simpl. constructor; [|exact HN]. rewrite Hk. intros Hin.
        apply list_elem_of_In, in_map_iff in Hin as (x & Hx & Hin).
        rewrite List.Forall_forall in HF. destruct (HF x Hin) as (h' & Hx' & Hn').
        apply Hn', elem_of_union. left. apply elem_of_singleton. congruence.
    + intros [HF HN]. inversion HF as [|? ? (h & Hk & Hn) HF']; subst.
      simpl in HN. inversion HN as [|? ? Hnotin HN']; subst.
      apply (distinct_cons key seen it l h Hk Hn). apply IH. split; [|exact HN'].
      rewrite List.Forall_forall in HF' |- *. intros x Hin.
      destruct (HF' x Hin) as (h' & Hx & Hn'). exists h'. split; [exact Hx|].
      intros Hu. apply elem_of_union in Hu as [Hu|Hu]; [|contradiction].
      apply elem_of_singleton in Hu. subst h'. apply Hnotin, list_elem_of_In.
      rewrite Hk, <- Hx. now apply in_map.
Qed.

(** X12. [dedupe_by_key] keeps, for every key, exactly the first item
    that has it, also when the key occurs only once: no key of the input
    is lost, none occurs twice in the result, and the result is never
    longer than the input. *)
Theorem dedupe_first_of_each_key (items res : list pyval) (key : string) :
  dedupe_by_key items key = Ok res ->
  (forall h, List.filter (has_key key h) res =
             firstn 1 (List.filter (has_key key h) items)) /\
  (forall x, In x items -> key_hash key x <> None ->
             exists y, In y res /\ key_hash key y = key_hash key x) /\
  NoDup (map (key_hash key) res) /\
  (length res <= length items)%nat.
Proof.
  intros H. unfold dedupe_by_key in H.
  assert (Hfirst : forall h, List.filter (has_key key h) res =
                             firstn 1 (List.filter (has_key key h) items)).
  { intros h. rewrite (dedupe_loop_first key h _ _ _ H).
    destruct (decide (h ∈ (∅ : gset hkey))) as [Hin|_]; [|reflexivity].
    now apply not_elem_of_empty in Hin. }
  split; [exact Hfirst|]. split; [|split].
  - intros x Hin Hx. destruct (key_hash key x) as [h|] eqn:Eh; [|congruence].
    assert (Hf : In x (List.filter (has_key key h) items)).
    { apply filter_In. split; [exact Hin|].
      unfold has_key. now apply bool_decide_eq_true_2. }
    destruct (List.filter (has_key key h) items) as [|y ys] eqn:Ef; [contradiction|].
    exists y. specialize (Hfirst h). rewrite Ef in Hfirst. simpl in Hfirst.
    assert (Hy : In y (List.filter (has_key key h) res)) by (rewrite Hfirst; now left).
    apply filter_In in Hy as [Hy Hk]. split; [exact Hy|].
    unfold has_key in Hk. now apply bool_decide_eq_true_1 in Hk.
  - apply dedupe_loop_distinct in H. now apply distinct_from_keys in H.
  - apply dedupe_loop_sublist in H. now apply sublist_length.
Qed.

(** X13. [dedupe_by_key] returns its input unchanged exactly when every
    item has a key (one that is there, is not [None] and can be hashed)
    and no two items have the same. *)
Theorem dedupe_unchanged_iff (items : list pyval) (key : string) :
  dedupe_by_key items key = Ok items <->
  Forall (fun it => key_hash key it <> None) items /\
  NoDup (map (key_hash key) items).
Proof.
  unfold dedupe_by_key. split.
  - intros H. apply dedupe_loop_distinct, distinct_from_keys in H as [HF HN].
    split; [|exact HN]. eapply List.Forall_impl; [|exact HF].
    intros x (h & -> & _). discriminate.
  - intros [HF HN]. apply distinct_from_fixed, distinct_from_keys.
    split; [|exact HN]. eapply List.Forall_impl; [|exact HF].
    intros x Hx. simpl in Hx. destruct (key_hash key x) as [h|]; [|congruence].
    exists h. split; [reflexivity|]. apply not_elem_of_empty.
Qed.

(** ** The projection on usernames *)

Lemma to_usernames_loop_result comments : forall seen out,
  to_usernames_loop comments seen out =
  (us <- to_usernames_loop comments seen [] ;; Ok (out ++ us)).
Proof.
  induction comments as [|c rest IH]; intros seen out; simpl.
  - now rewrite app_nil_r.
  - destruct (Py.get c "username" PNone) as [u|]; simpl; [|reflexivity].
    destruct (Py.truthy u); [|apply IH].
    destruct (py_hash u) as [h|]; simpl; [|reflexivity].
    destruct (decide (h ∈ seen)); [apply IH|].
    rewrite (IH _ (out ++ [u])), (IH _ [u]).
    destruct (to_usernames_loop rest ({[h]} ∪ seen) []); simpl; [|reflexivity].
    now rewrite <- app_assoc.
Qed.

Lemma usernames_loop_result comments : forall out,
  usernames_loop comments out =
  (us <- usernames_loop comments [] ;; Ok (out ++ us)).
Proof.
  induction comments as [|c rest IH]; intros out; simpl.
  - now rewrite app_nil_r.
  - destruct (Py.get c "username" PNone) as [u|]; simpl; [|reflexivity].
    destruct (Py.truthy u); [|apply IH].
    rewrite (IH (out ++ [u])), (IH [u]).
    destruct (usernames_loop rest []); simpl; [|reflexivity].
    now rewrite <- app_assoc.
Qed.

Lemma fresh_from_hash seen l u :
  fresh_from seen l -> In u l -> exists h, py_hash u = Ok h /\ h ∉ seen.
Proof.
  induction 1 as [|seen x l h Hh Hn Hl IH]; [contradiction|].
  intros [<-|Hin]; [eauto|].
  destruct (IH Hin) as (h' & Hu & Hn'). exists h'. split; [exact Hu|].
  intros Hs. apply Hn', elem_of_union. now right.
Qed.

Lemma fresh_from_NoDup seen l : fresh_from seen l -> NoDup l.
Proof.
  induction 1 as [|seen x l h Hh Hn Hl IH]; constructor; [|exact IH].
  intros Hin. apply list_elem_of_In in Hin.
  destruct (fresh_from_hash _ _ _ Hl Hin) as (h' & Hx & Hn').
  apply Hn', elem_of_union. left. apply elem_of_singleton. congruence.
Qed.

Lemma to_usernames_loop_spec comments : forall seen us,
  to_usernames_loop comments seen [] = Ok us ->
  exists all,
    usernames_loop comments [] = Ok all /\
    sublist us all /\
    fresh_from seen us /\
    forall u, In u all ->
      exists h, py_hash u = Ok h /\
                (h ∈ seen \/ exists u', In u' us /\ py_hash u' = Ok h).
Proof.
  induction comments as [|c rest IH]; intros seen us; simpl.
  - intros [= <-]. exists []. repeat split; try constructor. contradiction.
  - destruct (Py.get c "username" PNone) as [u|]; simpl; [|discriminate].
    destruct (Py.truthy u).
    + destruct (py_hash u) as [h|] eqn:Eh; simpl; [|discriminate].
      rewrite usernames_loop_result.
      destruct (decide (h ∈ seen)) as [Hin|Hn].
      * intros H. destruct (IH _ _ H) as (all & -> & Hs & Hf & Hc).
        exists (u :: all). simpl. repeat split; auto.
        -- now apply sublist_cons.
        -- intros x [<-|Hx]; [eauto|now apply Hc].
      * rewrite to_usernames_loop_result.
        destruct (to_usernames_loop rest ({[h]} ∪ seen) []) as [us'|] eqn:E;
          simpl; [|discriminate].
        intros [= <-]. destruct (IH _ _ E) as (all & -> & Hs & Hf & Hc).
        exists (u :: all). simpl. repeat split.
        -- now apply sublist_skip.
        -- now apply (fresh_cons seen u us' h).
        -- intros x [<-|Hx].
           ++ exists h. split; [exact Eh|]. right. exists u. split; [now left|exact Eh].
           ++ destruct (Hc x Hx) as (h' & Hx' & [Hin|(u' & Hu' & Hh')]).
              ** exists h'. split; [exact Hx'|].
                 apply elem_of_union in Hin as [Hin|Hin]; [|now left].
                 apply elem_of_singleton in Hin. subst h'.
                 right. exists u. split; [now left|exact Eh].
              ** exists h'. split; [exact Hx'|]. right. exists u'.
                 split; [now right|exact Hh'].
    + apply IH.
Qed.

Lemma filter_filter_when (f g k : pyval -> bool) l :
  (forall y, In y l -> g y && f y = k y) ->
  List.filter f (List.filter g l) = List.filter k l.
Proof.
  induction l as [|x l IH]; intros H; [reflexivity|].
  simpl. rewrite <- (H x (or_introl eq_refl)).
  assert (IH' : List.filter f (List.filter g l) = List.filter k l).
  { apply IH. intros y Hy. apply H. now right. }
  destruct (g x); simpl; [destruct (f x)|]; now rewrite IH'.
Qed.

Lemma unseen_after u h seen y :
  py_hash u = Ok h ->
  negb (same_name u y) && unseen seen y = unseen ({[h]} ∪ seen) y.
Proof.
  intros Hu. unfold same_name, unseen. rewrite Hu.
  destruct (py_hash y) as [h'|]; [|reflexivity].
  rewrite <- bool_decide_not, <- bool_decide_and. apply bool_decide_ext.
  rewrite elem_of_union, elem_of_singleton. split.
  - intros [Hne Hn] [->|Hin]; [now apply Hne|now apply Hn].
  - intros Hn. split; [intros ->; apply Hn; now left|].
    intros Hin. apply Hn. now right.
Qed.

Lemma unseen_seen u h seen y :
  py_hash u = Ok h -> h ∈ seen ->
  negb (same_name u y) && unseen seen y = unseen seen y.
Proof.
  intros Hu Hin. unfold same_name, unseen. rewrite Hu.
  destruct (py_hash y) as [h'|]; [|reflexivity].
  destruct (bool_decide_reflect (h = h')) as [<-|_]; [|reflexivity].
  simpl. symmetry. apply bool_decide_eq_false. intros Hn. now apply Hn.
Qed.

(** The loop keeps, of the names it has not yet seen, the first
    occurrences. *)
Lemma to_usernames_loop_first comments : forall seen us all,
  to_usernames_loop comments seen [] = Ok us ->
  usernames_loop comments [] = Ok all ->
  us = List.filter (unseen seen) (first_occurrences all).
Proof.
  induction comments as [|c rest IH]; intros seen us all; simpl.
  - now intros [= <-] [= <-].
  - destruct (Py.get c "username" PNone) as [u|]; simpl; [|discriminate].
    destruct (Py.truthy u); [|apply IH].
    destruct (py_hash u) as [h|] eqn:Eh; simpl; [|discriminate].
    rewrite usernames_loop_result.
    destruct (usernames_loop rest []) as [all'|] eqn:Ea; simpl.
    2:{ intros _ H. discriminate H. }
    destruct (decide (h ∈ seen)) as [Hin|Hn].
    + intros H [= <-]. simpl.
      assert (Hu : unseen seen u = false).
      { unfold unseen. rewrite Eh. apply bool_decide_eq_false.
        intros Hn. now apply Hn. }
      rewrite Hu, (filter_filter_when _ _ (unseen seen)).
      * now apply IH.
      * intros y _. now apply (unseen_seen u h).
    + rewrite to_usernames_loop_result.
      destruct (to_usernames_loop rest ({[h]} ∪ seen) []) as [us'|] eqn:E;
        simpl; [|discriminate].
      intros [= <-] [= <-]. simpl.
      assert (Hu : unseen seen u = true).
      { unfold unseen. rewrite Eh. now apply bool_decide_eq_true. }
      rewrite Hu, (filter_filter_when _ _ (unseen ({[h]} ∪ seen))).
      * f_equal. now apply IH.
      * intros y _. now apply unseen_after.
Qed.

Lemma first_occurrences_In u l : In u (first_occurrences l) -> In u l.
Proof.
  revert u. induction l as [|x l IH]; intros u; [contradiction|].
  simpl. intros [->|Hin]; [now left|].
  right. apply IH. now apply List.filter_In in Hin.
Qed.

Lemma filter_unseen_empty l :
  (forall u, In u l -> exists h, py_hash u = Ok h) ->
  List.filter (unseen ∅) l = l.
Proof.
  induction l as [|x l IH]; intros H; [reflexivity|].
  simpl. destruct (H x (or_introl eq_refl)) as [h Hh].
  unfold unseen at 1. rewrite Hh.
  rewrite (bool_decide_eq_true_2 _ (not_elem_of_empty (C := gset hkey) h)).
  f_equal. apply IH. intros u Hu. apply H. now right.
Qed.

(** The first occurrences within the front of a list come first. *)
Lemma first_occurrences_app pre post :
  exists rest, first_occurrences (pre ++ post) = first_occurrences pre ++ rest.
Proof.
  induction pre as [|x pre [rest IH]]; [now exists (first_occurrences post)|].
  simpl. rewrite IH, List.filter_app. eexists. reflexivity.
Qed.

Lemma usernames_loop_omap comments : forall all,
  usernames_loop comments [] = Ok all -> all = omap username_of comments.
Proof.
  induction comments as [|c rest IH]; intros all; simpl.
  - now intros [= <-].
  - unfold username_of at 1.
    destruct (Py.get c "username" PNone) as [u|]; simpl; [|discriminate].
    destruct (Py.truthy u); [|apply IH].
    rewrite usernames_loop_result.
    destruct (usernames_loop rest []) as [all'|]; simpl; [|discriminate].
    intros [= <-]. simpl. f_equal. now apply IH.
Qed.

Lemma username_of_truthy comments u :
  In u (omap username_of comments) -> Py.truthy u = true.
Proof.
  intros Hin. apply list_elem_of_In, list_elem_of_omap in Hin as (c & _ & Hc).
  unfold username_of in Hc.
  destruct (Py.get c "username" PNone) as [v|]; [|discriminate].
  destruct (Py.truthy v) eqn:E; [|discriminate]. now injection Hc as <-.
Qed.

(** X14. What [to_usernames] returns is what [usernames_with_duplicates]
    returns with the repeats taken out.  The latter is the usernames of
    the comments that are true values, in the order of the comments: an
    empty or missing username is not in it.  The former is its first
    occurrences, each at the place where the name occurs first: the
    names found in any front part of the list come first in it.  It is
    a subsequence without two equal names that has every name of the
    list. *)
Theorem to_usernames_first_occurrences (comments us : list pyval) :
  to_usernames comments = Ok us ->
  exists all,
    usernames_with_duplicates comments = Ok all /\
    all = omap username_of comments /\
    ~ In PNone all /\ ~ In (PStr "") all /\
    us = first_occurrences all /\
    (forall pre post, all = pre ++ post ->
       exists rest, us = first_occurrences pre ++ rest) /\
    sublist us all /\
    NoDup us /\
    forall s, In (PStr s) all <-> In (PStr s) us.
Proof.
  intros H. pose proof H as H'.
  apply to_usernames_loop_spec in H as (all & Hall & Hs & Hf & Hc).
  pose proof (usernames_loop_omap _ _ Hall) as Ho.
  assert (Hus : us = first_occurrences all).
  { rewrite (to_usernames_loop_first _ _ _ _ H' Hall).
    apply filter_unseen_empty. intros u Hu.
    apply first_occurrences_In in Hu. destruct (Hc u Hu) as (h & Hh & _).
    now exists h. }
  exists all. split; [exact Hall|]. split; [exact Ho|].
  split; [|split]; [intros Hin; rewrite Ho in Hin;
                    apply username_of_truthy in Hin; discriminate Hin..|].
  split; [exact Hus|]. split.
  { intros pre post ->. rewrite Hus. apply first_occurrences_app. }
  split; [exact Hs|].
  split; [eapply fresh_from_NoDup, Hf|].
  intros s. split.
  - intros Hin. destruct (Hc _ Hin) as (h & [= <-] & [Hx|(u' & Hu' & Hh)]).
    + now apply not_elem_of_empty in Hx.
    + destruct u'; try discriminate; simpl in Hh; try (now destruct b).
      now injection Hh as ->.
  - intros Hin. apply list_elem_of_In, (sublist_subseteq _ _ Hs), list_elem_of_In, Hin.
Qed.

(** ** More on the sort *)

Lemma string_ltb_neq s t : String.ltb s t = true -> String.eqb s t = false.
Proof.
  unfold String.ltb. intros H. apply String.eqb_neq. intros ->.
  now rewrite string_compare_refl in H.
Qed.

(** Inserting [x] puts it in front of the elements with its key. *)
Lemma insert_sorted_filter k x l :
  List.filter (fun kv => String.eqb (fst kv) k) (insert_sorted x l) =
  List.filter (fun kv => String.eqb (fst kv) k) (x :: l).
Proof.
  induction l as [|y l IH]; [reflexivity|].
  simpl insert_sorted. destruct (String.ltb (fst y) (fst x)) eqn:E; [|reflexivity].
  apply string_ltb_neq in E.
  change (List.filter (fun kv => String.eqb (fst kv) k) (y :: insert_sorted x l))
    with (if String.eqb (fst y) k
          then y :: List.filter (fun kv => String.eqb (fst kv) k) (insert_sorted x l)
          else List.filter (fun kv => String.eqb (fst kv) k) (insert_sorted x l)).
  rewrite IH. simpl.
  destruct (String.eqb_spec (fst y) k) as [Hy|Hy];
    destruct (String.eqb_spec (fst x) k) as [Hx|Hx]; try reflexivity.
  subst k. rewrite Hx, String.eqb_refl in E. discriminate.
Qed.

Lemma stable_sort_filter k l :
  List.filter (fun kv => String.eqb (fst kv) k) (stable_sort l) =
  List.filter (fun kv => String.eqb (fst kv) k) l.
Proof.
  induction l as [|x l IH]; [reflexivity|].
  simpl stable_sort. rewrite insert_sorted_filter. simpl. now rewrite IH.
Qed.

Lemma filter_keyed k kvs :
  Forall (fun kv => snd kv = PStr (str_of (snd kv)) /\
                    fst kv = Str.lower (str_of (snd kv))) kvs ->
  List.filter (fun v => String.eqb (sort_key v) k) (map snd kvs) =
  map snd (List.filter (fun kv => String.eqb (fst kv) k) kvs).
Proof.
  induction 1 as [|kv kvs [_ Hk] HF IH]; [reflexivity|].
  simpl. unfold sort_key at 1. rewrite <- Hk, IH.
  now destruct (String.eqb (fst kv) k).
Qed.

(** X15. The sort of the usernames only reorders them, and it is
    stable: the names with one and the same lower-case form (the same
    name in different cases, or repeated) stay in the order they had. *)
Theorem sort_by_lower_stable (l payload : list pyval) :
  sort_by_lower l = Ok payload ->
  Permutation l payload /\
  forall k, List.filter (fun v => String.eqb (sort_key v) k) payload =
            List.filter (fun v => String.eqb (sort_key v) k) l.
Proof.
  unfold sort_by_lower. destruct (with_keys l) as [kvs|e] eqn:E; [|discriminate].
  simpl. intros [= <-]. apply with_keys_lower in E as [HF Hm]. split.
  - rewrite <- Hm. apply Permutation_map, stable_sort_perm.
  - intros k. rewrite <- Hm.
    rewrite (filter_keyed k kvs HF),
      (filter_keyed k (stable_sort kvs) (stable_sort_Forall _ _ HF)).
    now rewrite stable_sort_filter.
Qed.


(** ** The whole command *)

Lemma for_each_length {A : Type} (f : pyval -> outcome A) l : forall ys,
  for_each f l = Ok ys -> length ys = length l.
Proof.
  induction l as [|x l IH]; simpl; intros ys.
  - now intros [= <-].
  - destruct (f x) as [y|]; simpl; [|discriminate].
    destruct (for_each f l) as [ys'|]; simpl; [|discriminate].
    intros [= <-]. simpl. f_equal. now apply IH.
Qed.

(** X17. The count a run reports is the number of records it wrote:
    the elements of the JSON array, the rows given to the CSV writer
    after the header, or the pieces of text written to the text file,
    one for each name or comment.  (It is not a count of lines: a
    piece whose name or text holds a newline spans more than one.) *)
Theorem saved_count_entries (a : Args.t) (w : world) (log : list request)
    (s : saved) :
  main a w = (log, Returned s) ->
  saved_count s = entries (saved_doc s).
Proof.
  unfold main.
  destruct (prepare a w) as [[sc hd]|]; [|discriminate].
  destruct (fetch_parent_comments _ _ _ _ _ _ _) as [log' [comments|e|st]];
    try discriminate.
  destruct (detailed_records a comments) as [records|]; simpl; [|discriminate].
  destruct (usernames_payload a records) as [payload|] eqn:Ep; simpl; [|discriminate].
  unfold save, write_output.
  destruct (disk_fails w); [discriminate|].
  unfold usernames_payload in Ep.
  destruct (Args.data_format a).
  - destruct (if Args.dedupe a then to_usernames records
              else usernames_with_duplicates records) as [us|];
      simpl in Ep; [|discriminate].
    destruct (sort_by_lower us) as [sorted|]; simpl in Ep; [|discriminate].
    injection Ep as <-. simpl.
    destruct (Args.file_format a); simpl; intros [= _ <-]; simpl;
      rewrite ?length_map; lia.
  - injection Ep as <-.
    destruct (Args.file_format a); simpl.
    + intros [= _ <-]. reflexivity.
    + destruct (for_each csv_row records) as [rows|e] eqn:E; simpl;
        [|now destruct e].
      intros [= _ <-]. simpl. rewrite (for_each_length _ _ _ E). lia.
    + destruct (for_each txt_line records) as [lines|e] eqn:E; simpl;
        [|now destruct e].
      intros [= _ <-]. simpl. now rewrite (for_each_length _ _ _ E).
Qed.

(** *** What the command can raise *)

Lemma py_hash_raises v : raises_only shape_error (py_hash v).
Proof. intros e. destruct v; simpl; try discriminate; intros [= <-]; now right. Qed.

Lemma dedupe_loop_raises key items : forall seen result,
  raises_only shape_error (dedupe_loop key items seen result).
Proof.
  induction items as [|it rest IH]; intros seen result; simpl; [discriminate|].
  apply bind_raises; [apply get_raises_shape|intros k].
  destruct (is_none k); [apply IH|].
  apply bind_raises; [apply py_hash_raises|intros h].
  destruct (decide (h ∈ seen)); apply IH.
Qed.

Lemma to_usernames_loop_raises comments : forall seen out,
  raises_only shape_error (to_usernames_loop comments seen out).
Proof.
  induction comments as [|c rest IH]; intros seen out; simpl; [discriminate|].
  apply bind_raises; [apply get_raises_shape|intros u].
  destruct (Py.truthy u); [|apply IH].
  apply bind_raises; [apply py_hash_raises|intros h].
  destruct (decide (h ∈ seen)); apply IH.
Qed.

Lemma usernames_loop_raises comments : forall out,
  raises_only shape_error (usernames_loop comments out).
Proof.
  induction comments as [|c rest IH]; intros out; simpl; [discriminate|].
  apply bind_raises; [apply get_raises_shape|intros u]. apply IH.
Qed.

Lemma sort_by_lower_raises l : raises_only shape_error (sort_by_lower l).
Proof.
  unfold sort_by_lower. apply bind_raises; [|discriminate].
  induction l as [|v l IH]; simpl; [discriminate|].
  apply bind_raises.
  - intros e. destruct v; simpl; try discriminate; intros [= <-]; now left.
  - intros k. apply bind_raises; [exact IH|discriminate].
Qed.

Lemma detailed_records_raises a comments :
  raises_only shape_error (detailed_records a comments).
Proof.
  unfold detailed_records, dedupe_by_key.
  destruct (Args.data_format a); [discriminate|].
  destruct (Args.dedupe a); [apply dedupe_loop_raises|discriminate].
Qed.

Lemma usernames_payload_raises a comments :
  raises_only shape_error (usernames_payload a comments).
Proof.
  unfold usernames_payload, to_usernames, usernames_with_duplicates.
  destruct (Args.data_format a); [|discriminate].
  apply bind_raises.
  - destruct (Args.dedupe a);
      [apply to_usernames_loop_raises|apply usernames_loop_raises].
  - intros us. apply bind_raises; [apply sort_by_lower_raises|discriminate].
Qed.

Lemma for_each_raises {A : Type} (f : pyval -> outcome A) l :
  (forall x, raises_only shape_error (f x)) ->
  raises_only shape_error (for_each f l).
Proof.
  intros Hf. induction l as [|x l IH]; simpl; [discriminate|].
  apply bind_raises; [apply Hf|intros y].
  apply bind_raises; [exact IH|discriminate].
Qed.

Lemma csv_row_raises c : raises_only shape_error (csv_row c).
Proof.
  unfold csv_row, reply_count, text_cell.
  apply bind_raises.
  - apply bind_raises; [apply get_raises_shape|intros replies].
    destruct (Py.is_list replies); [|discriminate].
    apply bind_raises; [apply get_raises_shape|intros r e].
    destruct r; try discriminate; intros [= <-]; now right.
  - intros n.
    apply bind_raises; [apply get_raises_shape|intros id].
    apply bind_raises; [apply get_raises_shape|intros username].
    apply bind_raises.
    + apply bind_raises; [apply get_raises_shape|intros text e].
      destruct (Py.or_ text (PStr "")); try discriminate; intros [= <-]; now left.
    + intros text.
      apply bind_raises; [apply get_raises_shape|intros likes].
      apply bind_raises; [apply get_raises_shape|discriminate].
Qed.

Lemma txt_line_raises c : raises_only shape_error (txt_line c).
Proof.
  unfold txt_line.
  apply bind_raises; [apply get_raises_shape|intros username].
  apply bind_raises; [apply get_raises_shape|intros text].
  apply bind_raises; [apply get_raises_shape|discriminate].
Qed.

(** [write_output] raises [OSError] when the disk fails, and otherwise
    only what a record of the wrong shape raises. *)
Lemma write_output_raises data file path comments usernames disk e :
  write_output data file path comments usernames disk = Raise e ->
  (e = OSError /\ disk = true) \/ (shape_error e /\ disk = false).
Proof.
  unfold write_output. destruct disk; [intros [= <-]; auto|].
  intros H. right. split; [|reflexivity]. revert e H.
  change (raises_only shape_error
    match data with
    | Usernames =>
        payload <- match usernames with
                   | Some us => Ok us
                   | None => to_usernames comments
                   end ;;
        match file with
        | Json => Ok (JsonDoc (PList payload))
        | Csv => Ok (CsvDoc ([PStr "username"] :: map (fun u => [u]) payload))
        | Txt => Ok (TxtDoc (map (fun u => [Fmt u; Lit (String newline EmptyString)])
                               payload))
        end
    | Detailed =>
        match file with
        | Json => Ok (JsonDoc (PList comments))
        | Csv =>
            rows <- for_each csv_row comments ;;
            Ok (CsvDoc ([PStr "id"; PStr "username"; PStr "text"; PStr "like_count";
                         PStr "created_at"; PStr "reply_count"] :: rows))
        | Txt =>
            lines <- for_each txt_line comments ;;
            Ok (TxtDoc lines)
        end
    end).
  destruct data.
  - apply bind_raises.
    + destruct usernames; [discriminate|apply to_usernames_loop_raises].
    + intros payload. destruct file; discriminate.
  - destruct file; [discriminate| |].
    + apply bind_raises;
        [apply for_each_raises, csv_row_raises|discriminate].
    + apply bind_raises;
        [apply for_each_raises, txt_line_raises|discriminate].
Qed.

Lemma save_raises a w comments payload e :
  save a w comments payload = Raise e ->
  (e = SystemExit 1 /\ disk_fails w = true) \/ shape_error e.
Proof.
  unfold save.
  destruct (write_output _ _ _ _ _ _) as [doc|e'] eqn:E; simpl; [discriminate|].
  apply write_output_raises in E as [(-> & Hd)|(Hs & _)].
  - intros [= <-]. auto.
  - destruct Hs as [-> | ->]; intros [= <-]; right; [now left|now right].
Qed.

Lemma validate_env_raises w e :
  validate_env w = Raise e -> e = SystemExit 2 /\ env_incomplete w = true.
Proof.
  unfold validate_env, env_incomplete. simpl.
  destruct (unset (SESSIONID w)), (unset (DS_USER_ID w)),
    (unset (CSRFTOKEN w)), (unset (MID w)); simpl;
    try discriminate; intros [= <-]; auto.
Qed.

Lemma prepare_raises a w e :
  prepare a w = Raise e ->
  (e = EOFError /\ stdin w = None) \/
  (e = SystemExit 2 /\
   ((exists url, read_url a w = Ok url /\ extract_media url = None) \/
    env_incomplete w = true)).
Proof.
  unfold prepare.
  destruct (read_url a w) as [url|e'] eqn:Eu; simpl.
  - destruct (extract_media url) as [[kind code]|] eqn:Em.
    + destruct (validate_env w) as [[]|e'] eqn:Ev; simpl; [discriminate|].
      intros [= <-]. apply validate_env_raises in Ev as [-> Hv]. auto.
    + intros [= <-]. right. split; [reflexivity|]. left. eauto.
  - intros [= <-]. left. unfold read_url, input in Eu.
    destruct (Args.url a) as [[|c u]|]; try discriminate;
      destruct (stdin w); try discriminate; simpl in Eu;
      injection Eu as <-; auto.
Qed.

(** X18. Once the command line is parsed ([parse_args] ends the
    process itself, with status 2, on arguments it does not accept:
    that is before [main] as it is here), when the command fails it is
    in one of these ways: with exit status 2, before any request is
    sent, because the URL names no post or a variable of the
    environment is missing; with exit status 1, because the service
    gave a bad reply or the output could not be written; with
    [EOFError] when the URL is asked for and the input is at its end;
    with the error of a lost connection; or with [AttributeError] or
    [TypeError] from a value of the wrong shape. *)
Theorem main_failures (a : Args.t) (w : world) (log : list request) (e : exn) :
  main a w = (log, Failed e) ->
  (e = SystemExit 2 /\ log = [] /\
   ((exists url, read_url a w = Ok url /\ extract_media url = None) \/
    env_incomplete w = true)) \/
  (e = SystemExit 1 /\
   ((exists pre bad post, service w = pre ++ bad :: post /\ bad_reply bad) \/
    disk_fails w = true)) \/
  (e = EOFError /\ log = [] /\ stdin w = None) \/
  (e = OSError /\ In NoConnection (service w)) \/
  shape_error e.
Proof.
  unfold main.
  destruct (prepare a w) as [[sc hd]|e'] eqn:Ep.
  - unfold fetch_parent_comments.
    destruct (fetch_loop _ _ _ _ _ _ (service w) _) as [log' [comments|e'|st]] eqn:Ef;
      [| |discriminate].
    + destruct (detailed_records a comments) as [records|e'] eqn:Ed; simpl.
      * destruct (usernames_payload a records) as [payload|e'] eqn:Eu; simpl.
        -- destruct (save a w records payload) as [s|e'] eqn:Es; [discriminate|].
           intros [= _ <-]. apply save_raises in Es as [(-> & Hd)|Hs]; auto 6.
        -- intros [= _ <-]. apply usernames_payload_raises in Eu. auto 6.
      * intros [= _ <-]. apply detailed_records_raises in Ed. auto 6.
    + intros [= _ <-].
      apply fetch_loop_failures in Ef
        as [(-> & pre & bad & post & Hs & Hb & _)|[(-> & Hin)|Hs]]; auto 6.
      right; left. split; [reflexivity|]. left. eauto.
  - intros [= <- <-].
    apply prepare_raises in Ep as [(-> & Hs)|(-> & Hc)]; auto 7.
Qed.

(** ** The further statements at work on the samples *)

Lemma fetched_are_records_witness :
  Forall (is_record false)
    [Sample.record (PStr "1") "Bob" "first" (PInt 3);
     Sample.record (PStr "3") "carl" "third" (PInt 7)].
Proof.
  eapply (fetched_are_records "XY" [] 50 false None 1
            [Reply 200 (Some Sample.first_page); Reply 200 (Some Sample.no_media)]).
  vm_compute. reflexivity.
Defined.

Lemma fetch_failures_witness :
  (SystemExit 1 = SystemExit 1 /\ exists pre bad post,
      [Reply 200 (Some Sample.first_page); Reply 503 None] = pre ++ bad :: post /\
      bad_reply bad /\
      length [request_for "XY" [] 50 PNone; request_for "XY" [] 50 (PStr "c1")] =
        S (length pre)) \/
  (SystemExit 1 = OSError /\
   In NoConnection [Reply 200 (Some Sample.first_page); Reply 503 None]) \/
  shape_error (SystemExit 1).
Proof.
  apply (fetch_failures "XY" [] 50 false None 1
           [Reply 200 (Some Sample.first_page); Reply 503 None]).
  vm_compute. reflexivity.
Defined.

Lemma fetch_requests_witness :
  [request_for "XY" [] 50 PNone; request_for "XY" [] 50 (PStr "c1")] =
  map (request_for "XY" [] 50)
    (firstn 2 (PNone :: map cursor_after
                          [Reply 200 (Some Sample.first_page);
                           Reply 200 (Some Sample.last_page)])).
Proof.
  apply (fetch_requests "XY" [] 50 false None 1
           [Reply 200 (Some Sample.first_page); Reply 200 (Some Sample.last_page)]
           [request_for "XY" [] 50 PNone; request_for "XY" [] 50 (PStr "c1")]
           (Returned [Sample.record (PStr "1") "Bob" "first" (PInt 3);
                      Sample.record (PStr "3") "carl" "third" (PInt 7);
                      Sample.record (PStr "4") "bob" "fourth" (PInt 3);
                      Sample.record (PStr "1") "Bob" "first" (PInt 3)])).
  vm_compute. reflexivity.
Defined.

Lemma fetch_all_pages_witness :
  exists log,
    fetch_parent_comments "XY" [] 50 false None 1
      ([Reply 200 (Some Sample.first_page); Reply 200 (Some Sample.last_page)] ++
       [Reply 500 None]) =
    (log, Returned [Sample.record (PStr "1") "Bob" "first" (PInt 3);
                    Sample.record (PStr "3") "carl" "third" (PInt 7);
                    Sample.record (PStr "4") "bob" "fourth" (PInt 3);
                    Sample.record (PStr "1") "Bob" "first" (PInt 3)]) /\
    length log = length [Reply 200 (Some Sample.first_page);
                         Reply 200 (Some Sample.last_page)].
Proof.
  apply (fetch_all_pages "XY" [] 50 false 1
           [Reply 200 (Some Sample.first_page); Reply 200 (Some Sample.last_page)]
           (kept false 1 [Sample.comment "1" "Bob" "first" (PInt 3);
                          Sample.comment "2" "alice" "second" PNone;
                          Sample.comment "3" "carl" "third" (PInt 7)] ++
            kept false 1 [Sample.comment "4" "bob" "fourth" (PInt 3);
                          Sample.comment "1" "Bob" "first" (PInt 3)])).
  eapply (chain_more false 1 Sample.first_page _ (PBool true) (PStr "c1")).
  - eexists _, _, _. repeat split; reflexivity.
  - reflexivity.
  - reflexivity.
  - eapply (chain_last false 1 Sample.last_page _ (PBool false) PNone).
    + eexists _, _, _. repeat split; reflexivity.
    + reflexivity.
    + reflexivity.
Defined.

Lemma fetch_pages_up_to_cap_witness :
  exists log,
    fetch_parent_comments "XY" [] 50 false (Some 3) 1
      ([Reply 200 (Some Sample.first_page); Reply 200 (Some Sample.last_page)] ++ []) =
    (log, Returned [Sample.record (PStr "1") "Bob" "first" (PInt 3);
                    Sample.record (PStr "3") "carl" "third" (PInt 7);
                    Sample.record (PStr "4") "bob" "fourth" (PInt 3)]) /\
    (length log <= length [Reply 200 (Some Sample.first_page);
                           Reply 200 (Some Sample.last_page)])%nat.
Proof.
  apply (fetch_pages_up_to_cap "XY" [] 50 false 1 3 eq_refl
           [Reply 200 (Some Sample.first_page); Reply 200 (Some Sample.last_page)]
           (kept false 1 [Sample.comment "1" "Bob" "first" (PInt 3);
                          Sample.comment "2" "alice" "second" PNone;
                          Sample.comment "3" "carl" "third" (PInt 7)] ++
            kept false 1 [Sample.comment "4" "bob" "fourth" (PInt 3);
                          Sample.comment "1" "Bob" "first" (PInt 3)])).
  eapply (chain_more false 1 Sample.first_page _ (PBool true) (PStr "c1")).
  - eexists _, _, _. repeat split; reflexivity.
  - reflexivity.
  - reflexivity.
  - eapply (chain_last false 1 Sample.last_page _ (PBool false) PNone).
    + eexists _, _, _. repeat split; reflexivity.
    + reflexivity.
    + reflexivity.
Defined.

Lemma good_edges_readable_witness :
  readable true 2
    [Sample.comment "1" "Bob" "first" (PInt 3);
     PDict [];
     PDict [("node",
             PDict [("like_count", PBool true);
                    ("edge_threaded_comments",
                     PDict [("edges", PList [Sample.comment "2" "gil" "re" PNone])])])]] =
  true.
Proof.
  apply (good_edges_readable true 2). reflexivity.
Defined.

Lemma dedupe_first_of_each_key_witness :
  (forall h,
      List.filter (has_key "id" h)
        [Sample.record (PStr "1") "Bob" "first" (PInt 3);
         Sample.record (PStr "2") "alice" "second" PNone] =
      firstn 1
        (List.filter (has_key "id" h)
           [Sample.record (PStr "1") "Bob" "first" (PInt 3);
            Sample.record PNone "dora" "hello" (PInt 4);
            Sample.record (PStr "2") "alice" "second" PNone;
            Sample.record (PStr "1") "Bob" "again" (PInt 9)])) /\
  (forall x,
      In x [Sample.record (PStr "1") "Bob" "first" (PInt 3);
            Sample.record PNone "dora" "hello" (PInt 4);
            Sample.record (PStr "2") "alice" "second" PNone;
            Sample.record (PStr "1") "Bob" "again" (PInt 9)] ->
      key_hash "id" x <> None ->
      exists y,
        In y [Sample.record (PStr "1") "Bob" "first" (PInt 3);
              Sample.record (PStr "2") "alice" "second" PNone] /\
        key_hash "id" y = key_hash "id" x) /\
  NoDup (map (key_hash "id")
           [Sample.record (PStr "1") "Bob" "first" (PInt 3);
            Sample.record (PStr "2") "alice" "second" PNone]) /\
  (length [Sample.record (PStr "1") "Bob" "first" (PInt 3);
           Sample.record (PStr "2") "alice" "second" PNone] <=
   length [Sample.record (PStr "1") "Bob" "first" (PInt 3);
           Sample.record PNone "dora" "hello" (PInt 4);
           Sample.record (PStr "2") "alice" "second" PNone;
           Sample.record (PStr "1") "Bob" "again" (PInt 9)])%nat.
Proof.
  apply (dedupe_first_of_each_key
           [Sample.record (PStr "1") "Bob" "first" (PInt 3);
            Sample.record PNone "dora" "hello" (PInt 4);
            Sample.record (PStr "2") "alice" "second" PNone;
            Sample.record (PStr "1") "Bob" "again" (PInt 9)]).
  vm_compute. reflexivity.
Defined.

Lemma to_usernames_first_occurrences_witness :
  exists all,
    usernames_with_duplicates
      [Sample.record (PStr "1") "Bob" "first" (PInt 3);
       Sample.record (PStr "2") "" "second" PNone;
       Sample.record (PStr "4") "bob" "fourth" (PInt 3);
       Sample.record (PStr "5") "Bob" "again" (PInt 9)] = Ok all /\
    all = omap username_of
            [Sample.record (PStr "1") "Bob" "first" (PInt 3);
             Sample.record (PStr "2") "" "second" PNone;
             Sample.record (PStr "4") "bob" "fourth" (PInt 3);
             Sample.record (PStr "5") "Bob" "again" (PInt 9)] /\
    ~ In PNone all /\ ~ In (PStr "") all /\
    [PStr "Bob"; PStr "bob"] = first_occurrences all /\
    (forall pre post, all = pre ++ post ->
       exists rest, [PStr "Bob"; PStr "bob"] = first_occurrences pre ++ rest) /\
    sublist [PStr "Bob"; PStr "bob"] all /\
    NoDup [PStr "Bob"; PStr "bob"] /\
    forall s, In (PStr s) all <-> In (PStr s) [PStr "Bob"; PStr "bob"].
Proof.
  apply (to_usernames_first_occurrences
           [Sample.record (PStr "1") "Bob" "first" (PInt 3);
            Sample.record (PStr "2") "" "second" PNone;
            Sample.record (PStr "4") "bob" "fourth" (PInt 3);
            Sample.record (PStr "5") "Bob" "again" (PInt 9)]).
  vm_compute. reflexivity.
Defined.

Lemma sort_by_lower_stable_witness :
  Permutation [PStr "bob"; PStr "Carl"; PStr "Bob"; PStr "alice"; PStr "BOB"]
    [PStr "alice"; PStr "bob"; PStr "Bob"; PStr "BOB"; PStr "Carl"] /\
  forall k,
    List.filter (fun v => String.eqb (sort_key v) k)
      [PStr "alice"; PStr "bob"; PStr "Bob"; PStr "BOB"; PStr "Carl"] =
    List.filter (fun v => String.eqb (sort_key v) k)
      [PStr "bob"; PStr "Carl"; PStr "Bob"; PStr "alice"; PStr "BOB"].
Proof.
  apply (sort_by_lower_stable
           [PStr "bob"; PStr "Carl"; PStr "Bob"; PStr "alice"; PStr "BOB"]).
  vm_compute. reflexivity.
Defined.


Lemma saved_count_entries_witness :
  exists log s,
    main (Sample.detailed true)
      (Sample.world_with
         [Reply 200 (Some Sample.first_page); Reply 200 (Some Sample.last_page)]
         false) = (log, Returned s) /\
    saved_count s = 4%nat /\
    saved_count s = entries (saved_doc s).
Proof.
  destruct (main (Sample.detailed true)
              (Sample.world_with
                 [Reply 200 (Some Sample.first_page); Reply 200 (Some Sample.last_page)]
                 false)) as [log [s|e|st]] eqn:E;
    [|vm_compute in E; discriminate..].
  exists log, s. split; [reflexivity|]. split.
  - vm_compute in E. injection E as _ <-. reflexivity.
  - exact (saved_count_entries _ _ _ _ E).
Defined.

Lemma main_failures_witness :
  (SystemExit 2 = SystemExit 2 /\ @nil request = [] /\
   ((exists url,
        read_url Sample.args
          (Sample.world_with [] false) = Ok url /\
        extract_media url = None) \/
    env_incomplete
      {| SESSIONID := Some "s"; DS_USER_ID := None; CSRFTOKEN := Some "t";
         MID := Some "m"; stdin := None; service := []; disk_fails := false |} =
    true)) \/
  (SystemExit 2 = SystemExit 1 /\
   ((exists pre bad post, [] = pre ++ bad :: post /\ bad_reply bad) \/
    false = true)) \/
  (SystemExit 2 = EOFError /\ @nil request = [] /\ @None string = None) \/
  (SystemExit 2 = OSError /\ In NoConnection []) \/
  shape_error (SystemExit 2).
Proof.
  apply (main_failures Sample.args
           {| SESSIONID := Some "s"; DS_USER_ID := None; CSRFTOKEN := Some "t";
              MID := Some "m"; stdin := None; service := []; disk_fails := false |}
           [] (SystemExit 2)).
  vm_compute. reflexivity.
Defined.
